(** * flask_app.py: token-bucket admission and sliding-window metrics

    A shallow embedding of the QoS core of [src/flask_app.py]: the global
    token bucket ([tokens], [last_refill], [refill_tokens], [qos_admit]), the
    bounded window ([WINDOW], [record], [qos_reset]) and [compute_metrics].

    Conventions of the embedding.
    - Python [int] is [Z].
    - Python [float] is read as the rational it stands for ([Q]); binary64
      representation error is not modelled.  [int(x)] truncates toward zero,
      [round(x)] and [round(x, n)] round to nearest, ties to even.  A
      quotient that is a decimal tie as a rational need not be one in
      binary64, so the theorems on rounded values state that the result is a
      nearest multiple of [10^-n] and leave the tie open.  Module [Binary64]
      evaluates the float expressions whose inputs the window bounds, and
      the last section checks the rational reading against it.
    - [time.time()] is an input: every function that reads the clock once
      takes that reading as its first argument.
    - The module globals form one record [Globals]; functions run in a small
      state-and-exception monad [Py] over it. *)

From Stdlib Require Import String ZArith QArith Qround Qabs List Bool Lia Lqa.
From Stdlib Require Import Sorting.Sorted Sorting.Permutation Sorting.Mergesort Orders.
From Stdlib Require Floats.PrimFloat Floats.FloatOps Floats.SpecFloat.
From Stdlib Require Numbers.Cyclic.Int63.Uint63.
From Stdlib Require Strings.Ascii Numbers.DecimalString.
Import ListNotations.

Local Open Scope Z_scope.

(** ** Python values *)

Module Py.

Inductive exn : Type :=
| ZeroDivisionError
| IndexError.

Inductive outcome (A : Type) : Type :=
| Returns (a : A)
| Raises (e : exn).
Arguments Returns {A} a.
Arguments Raises {A} e.

(** A number is an [int] or a [float]; a JSON-like value is a number or a
    [dict] with string keys, kept in the order of the dict literal. *)
#[warnings="-register-all"]
Inductive value : Type :=
| VInt (z : Z)
| VFloat (q : Q)
| VDict (items : list (string * value)).

Fixpoint assoc (k : string) (items : list (string * value)) : option value :=
  match items with
  | [] => None
  | (k', v) :: rest => if String.eqb k k' then Some v else assoc k rest
  end.

(** [d[k]] read as an option: [None] when [d] is not a dict or lacks [k]. *)
Definition get (k : string) (v : value) : option value :=
  match v with
  | VDict items => assoc k items
  | _ => None
  end.

(** The rational a numeric value stands for. *)
Definition to_Q (v : value) : option Q :=
  match v with
  | VInt z => Some (inject_Z z)
  | VFloat q => Some q
  | VDict _ => None
  end.

(** [int(x)] on a float: truncation toward zero. *)
Definition int (x : Q) : Z := Z.quot (Qnum x) (Zpos (Qden x)).

(** [round(x)] on a float: nearest integer, ties to the even one. *)
Definition round (x : Q) : Z :=
  let f := Qfloor x in
  match ((x - inject_Z f) ?= (1 # 2))%Q with
  | Lt => f
  | Gt => f + 1
  | Eq => if Z.even f then f else f + 1
  end.

Definition pow10 (n : nat) : Z := 10 ^ Z.of_nat n.

(** [round(x, n)]: an int is returned unchanged (for [n >= 0]); a float is
    rounded to the nearest multiple of [10^-n]. *)
Definition round_float (x : Q) (n : nat) : Q :=
  (inject_Z (round (x * inject_Z (pow10 n))) / inject_Z (pow10 n))%Q.

Definition round_ndigits (v : value) (n : nat) : value :=
  match v with
  | VFloat q => VFloat (round_float q n)
  | _ => v
  end.

(** [a / b] on ints: true division, raising on a zero divisor. *)
Definition truediv (a b : Z) : outcome Q :=
  if b =? 0 then Raises ZeroDivisionError
  else Returns (inject_Z a / inject_Z b)%Q.

Definition len {A : Type} (l : list A) : Z := Z.of_nat (length l).

(** [l[i]]: negative indices count from the end; out of range raises. *)
Definition getitem {A : Type} (l : list A) (i : Z) : outcome A :=
  let j := if i <? 0 then i + len l else i in
  if (j <? 0) || (len l <=? j) then Raises IndexError
  else match nth_error l (Z.to_nat j) with
       | Some a => Returns a
       | None => Raises IndexError
       end.

(** [range(a, b)] *)
Definition range (a b : Z) : list Z :=
  map (fun k => a + Z.of_nat k) (seq 0 (Z.to_nat (b - a))).

Definition sum (l : list Z) : Z := fold_left Z.add l 0.

End Py.

Import Py.

(** [sorted] on a list of ints. *)
Module ZLeB <: TotalLeBool.
Definition t := Z.
Definition leb := Z.leb.
Lemma leb_total : forall a b, leb a b = true \/ leb b a = true.
Proof. intros a b; unfold leb; rewrite !Z.leb_le; lia. Qed.
End ZLeB.

Module ZSort := Sort ZLeB.

Definition sorted (l : list Z) : list Z := ZSort.sort l.

(** ** Module state *)

(** One window entry, the tuple [(t, endpoint, duration_ms, status)]. *)
Record Sample : Type := mkSample {
  s_t : Q;
  s_endpoint : string;
  s_duration_ms : Z;
  s_status : Z
}.

(** [collections.deque] with a [maxlen]: items oldest first. *)
Record deque (A : Type) : Type := mkDeque {
  maxlen : nat;
  items : list A
}.
Arguments mkDeque {A} maxlen items.
Arguments maxlen {A} d.
Arguments items {A} d.

(** [d.append(x)]: when the bound is exceeded the leftmost item is dropped. *)
Definition deque_append {A : Type} (x : A) (d : deque A) : deque A :=
  let l := items d ++ [x] in
  mkDeque (maxlen d) (if (maxlen d <? length l)%nat then tl l else l).

(** [d.clear()] *)
Definition deque_clear {A : Type} (d : deque A) : deque A :=
  mkDeque (maxlen d) [].

Definition TOKENS_PER_SEC : Z := 5.
Definition BURST : Z := 10.

Record Globals : Type := mkGlobals {
  WINDOW : deque Sample;
  tokens : Z;
  last_refill : Q
}.

(** The state right after the module is imported at clock reading [t0]. *)
Definition module_init (t0 : Q) : Globals :=
  {| WINDOW := mkDeque 2000 []; tokens := BURST; last_refill := t0 |}.

(** ** The [Py] monad: global state and exceptions *)

Definition Py (A : Type) : Type := Globals -> outcome A * Globals.

Definition ret {A : Type} (a : A) : Py A := fun g => (Returns a, g).

Definition bind {A B : Type} (m : Py A) (k : A -> Py B) : Py B :=
  fun g => match m g with
           | (Returns a, g') => k a g'
           | (Raises e, g') => (Raises e, g')
           end.

Definition lift {A : Type} (o : outcome A) : Py A := fun g => (o, g).

Definition read {A : Type} (f : Globals -> A) : Py A := fun g => (Returns (f g), g).

Definition set_tokens (z : Z) : Py unit :=
  fun g => (Returns tt, {| WINDOW := WINDOW g; tokens := z; last_refill := last_refill g |}).

Definition set_last_refill (t : Q) : Py unit :=
  fun g => (Returns tt, {| WINDOW := WINDOW g; tokens := tokens g; last_refill := t |}).

Definition update_WINDOW (f : deque Sample -> deque Sample) : Py unit :=
  fun g => (Returns tt, {| WINDOW := f (WINDOW g); tokens := tokens g; last_refill := last_refill g |}).

Declare Scope py_scope.
Delimit Scope py_scope with py.
Notation "x <- m ;; k" := (bind m (fun x => k))
  (at level 61, m at next level, right associativity) : py_scope.
Notation "m ;; k" := (bind m (fun _ => k))
  (at level 61, right associativity) : py_scope.
Local Open Scope py_scope.

(** Monadic map, for list comprehensions whose body may raise. *)
Fixpoint mapM {A B : Type} (f : A -> outcome B) (l : list A) : outcome (list B) :=
  match l with
  | [] => Returns []
  | a :: rest =>
      match f a with
      | Raises e => Raises e
      | Returns b =>
          match mapM f rest with
          | Raises e => Raises e
          | Returns bs => Returns (b :: bs)
          end
      end
  end.

(** ** Token bucket *)

(** [refill_tokens()], with [t] the value of [time.time()]. *)
Definition refill_tokens (t : Q) : Py unit :=
  last <- read last_refill ;;
  let elapsed := (t - last)%Q in
  let add := Py.int (elapsed * inject_Z TOKENS_PER_SEC) in
  if 0 <? add then
    tk <- read tokens ;;
    set_tokens (Z.min BURST (tk + add)) ;;
    set_last_refill t
  else ret tt.

(** [qos_admit()]: returns [(allowed, retry_after_seconds)]. *)
Definition qos_admit (t : Q) : Py (bool * Z) :=
  refill_tokens t ;;
  tk <- read tokens ;;
  if 0 <? tk then
    set_tokens (tk - 1) ;;
    ret (true, 0)
  else ret (false, 1).

(** ** Window *)

(** [record(endpoint, duration_ms, status)], with [t] the clock reading. *)
Definition record (t : Q) (endpoint : string) (duration_ms status : Z) : Py unit :=
  update_WINDOW (deque_append (mkSample t endpoint duration_ms status)).

(** The body of the [/qos/reset] handler that touches the state:
    [WINDOW.clear()]. *)
Definition qos_reset : Py unit := update_WINDOW deque_clear.

(** ** Metrics *)

Definition and_then {A B : Type} (o : outcome A) (k : A -> outcome B) : outcome B :=
  match o with
  | Returns a => k a
  | Raises e => Raises e
  end.

(** The nested function [pct(p)] of [compute_metrics]; [durations] is the
    variable of the enclosing call it closes over. *)
Definition pct (durations : list Z) (p : Z) : outcome Z :=
  let idx := Py.round ((inject_Z p / inject_Z 100) * inject_Z (len durations - 1)) in
  getitem durations (Z.max 0 (Z.min idx (len durations - 1))).

(** The comprehension
    [[abs(durations[i] - durations[i-1]) for i in range(1, len(durations))]]. *)
Definition consecutive_diffs (durations : list Z) : outcome (list Z) :=
  mapM (fun i =>
          and_then (getitem durations i) (fun a =>
          and_then (getitem durations (i - 1)) (fun b =>
          Returns (Z.abs (a - b)))))
       (range 1 (len durations)).

Definition is_nil {A : Type} (l : list A) : bool :=
  match l with [] => true | _ => false end.

(** [compute_metrics()], with [now] the value of [time.time()]. *)
Definition compute_metrics (now : Q) : Py value :=
  w <- read WINDOW ;;
  let data := items w in
  if is_nil data then ret (VDict []) else
  let durations := sorted (map s_duration_ms data) in
  let errors := Py.sum (map (fun _ => 1) (filter (fun d => 400 <=? s_status d) data)) in
  let total := len data in
  error_rate <- lift (truediv errors total) ;;
  let cutoff := (now - inject_Z 60)%Q in
  let last60 := filter (fun d => Qle_bool cutoff (s_t d)) data in
  rps <- (if is_nil last60 then ret (VInt 0)
          else q <- lift (truediv (len last60) 60) ;; ret (VFloat q)) ;;
  diffs <- lift (consecutive_diffs durations) ;;
  jitter <- (if is_nil diffs then ret (VInt 0)
             else q <- lift (truediv (Py.sum diffs) (len diffs)) ;; ret (VFloat q)) ;;
  p50 <- lift (pct durations 50) ;;
  p90 <- lift (pct durations 90) ;;
  p95 <- lift (pct durations 95) ;;
  p99 <- lift (pct durations 99) ;;
  mx <- lift (getitem durations (-1)) ;;
  ret (VDict [
    ("count", VInt total);
    ("error_rate", round_ndigits (VFloat error_rate) 4);
    ("rps_last_60s", round_ndigits rps 3);
    ("latency_ms", VDict [
      ("p50", VInt p50);
      ("p90", VInt p90);
      ("p95", VInt p95);
      ("p99", VInt p99);
      ("max", VInt mx)
    ]);
    ("jitter_ms_avg_absdiff", round_ndigits jitter 2);
    ("qos_policy", VDict [
      ("token_bucket", VDict [("tokens_per_sec", VInt TOKENS_PER_SEC); ("burst", VInt BURST)])
    ])
  ]%string).

(** ** Call sequences *)

(** The states seen around a sequence of [qos_admit()] calls made at the clock
    readings [ts]: the state before the first call, then the state after each
    call. *)
Fixpoint admit_states (ts : list Q) (g : Globals) : list Globals :=
  g :: match ts with
       | [] => []
       | t :: rest => admit_states rest (snd (qos_admit t g))
       end.

(** The results of a sequence of [qos_admit()] calls, and the final state. *)
Fixpoint admit_all (ts : list Q) (g : Globals) : list (outcome (bool * Z)) * Globals :=
  match ts with
  | [] => ([], g)
  | t :: rest =>
      let (r, g') := qos_admit t g in
      let (rs, g'') := admit_all rest g' in
      (r :: rs, g'')
  end.

(** One [record(endpoint, duration_ms, status)] call with its clock reading. *)
Definition record_call : Type := (Q * string * Z * Z)%type.

Definition sample_of (c : record_call) : Sample :=
  let '(t, endpoint, duration_ms, status) := c in
  mkSample t endpoint duration_ms status.

Definition record_all (calls : list record_call) (g : Globals) : Globals :=
  fold_left (fun g c => let '(t, endpoint, duration_ms, status) := c in
                        snd (record t endpoint duration_ms status g))
            calls g.

(** ** Reference definitions for the metrics

    These follow the wording of the specification, not the code; the theorems
    on [compute_metrics] compare the two. *)

Module Spec.

(** [r] is [x] rounded to [n] decimal places: a multiple of [10^-n] at most
    half a unit of the last place away from [x].  On a tie either neighbour
    qualifies. *)
Definition rounded_to (n : nat) (x r : Q) : Prop :=
  (exists k : Z, r == inject_Z k / inject_Z (10 ^ Z.of_nat n))%Q /\
  (Qabs (x - r) <= 1 / (2 * inject_Z (10 ^ Z.of_nat n)))%Q.

(** [i] is [x] rounded to an integer. *)
Definition nearest_int (x : Q) (i : Z) : Prop :=
  (Qabs (x - inject_Z i) <= 1 # 2)%Q.

(** Nearest-rank percentile of an ascending list [s]: the element whose
    index is [round((p/100) * (total - 1))] clamped to [[0, total - 1]]. *)
Definition rank_index (total p : Z) : Z :=
  Z.max 0 (Z.min (Py.round ((inject_Z p / inject_Z 100) * inject_Z (total - 1))) (total - 1)).

Definition nearest_rank (s : list Z) (p : Z) : Z :=
  nth (Z.to_nat (rank_index (Z.of_nat (length s)) p)) s 0.

(** Absolute differences between consecutive elements. *)
Fixpoint absdiffs (s : list Z) : list Z :=
  match s with
  | a :: (b :: _) as rest => Z.abs (b - a) :: absdiffs rest
  | _ => []
  end.

Definition total (l : list Z) : Z := fold_right Z.add 0 l.

Definition mean (l : list Z) : Q :=
  (inject_Z (total l) / inject_Z (Z.of_nat (length l)))%Q.

(** Number of samples whose timestamp is at or after [cutoff]. *)
Fixpoint count_since (cutoff : Q) (data : list Sample) : nat :=
  match data with
  | [] => 0
  | d :: rest =>
      ((if Qlt_le_dec (s_t d) cutoff then 0 else 1) + count_since cutoff rest)%nat
  end.

End Spec.

(** Reading a field at a path of keys in a nested dict. *)
Fixpoint get_path (path : list string) (v : value) : option value :=
  match path with
  | [] => Some v
  | k :: rest =>
      match Py.get k v with
      | Some v' => get_path rest v'
      | None => None
      end
  end.

(** ** The float expressions of [compute_metrics] in binary64

    The embedding reads floats as rationals.  For the two float expressions
    whose inputs are bounded by the window size, [(p/100) * (total - 1)] and
    [len(last60) / 60], this module evaluates them as the interpreter does,
    with IEEE 754 binary64 operations, so that the rational reading can be
    checked against it over the whole range of the window. *)

Module Binary64.

Import Floats.PrimFloat Floats.FloatOps Floats.SpecFloat.

(** [float(z)] for a small non-negative int. *)
Definition of_int (z : Z) : float := PrimFloat.of_uint63 (Uint63.of_Z z).

(** The rational a finite float stands for. *)
Definition exact (f : float) : option Q :=
  match Prim2SF f with
  | S754_zero _ => Some 0%Q
  | S754_finite s m e =>
      let v := if 0 <=? e then inject_Z (Zpos m * 2 ^ e)
               else (Zpos m # Pos.pow 2 (Z.to_pos (- e)))%Q in
      Some (if s then Qopp v else v)
  | _ => None
  end.

(** [max(0, min(int(round((p/100) * (total-1))), total-1))] *)
Definition rank_index (total p : Z) : option Z :=
  option_map (fun x => Z.max 0 (Z.min (Py.round x) (total - 1)))
    (exact (PrimFloat.mul (PrimFloat.div (of_int p) (of_int 100)) (of_int (total - 1)))).

(** [round(n / 60, 3)] *)
Definition rps (n : Z) : option Q :=
  option_map (fun x => Py.round_float x 3)
    (exact (PrimFloat.div (of_int n) (of_int 60))).

End Binary64.

(** ** Definitions used by the proofs *)

(** [g] with the bucket fields replaced. *)
Definition with_bucket (g : Globals) (tk : Z) (last : Q) : Globals :=
  {| WINDOW := WINDOW g; tokens := tk; last_refill := last |}.

(** The bucket invariant. *)
Definition bucket_ok (g : Globals) : Prop := 0 <= tokens g <= BURST.

(** The bucket is settled at [t] when a refill at [t] adds nothing. *)
Definition settled (t : Q) (g : Globals) : Prop :=
  Py.int ((t - last_refill g) * inject_Z TOKENS_PER_SEC) <= 0.

(** Appending a list of items one by one. *)
Definition deque_extend {A : Type} (xs : list A) (d : deque A) : deque A :=
  fold_left (fun d x => deque_append x d) xs d.

(** The entries of the dict that [compute_metrics] returns on a non-empty
    window, written with the reference definitions. *)
Definition latency_of (durations : list Z) : value :=
  VDict [
    ("p50", VInt (Spec.nearest_rank durations 50));
    ("p90", VInt (Spec.nearest_rank durations 90));
    ("p95", VInt (Spec.nearest_rank durations 95));
    ("p99", VInt (Spec.nearest_rank durations 99));
    ("max", VInt (last durations 0))
  ]%string.

Definition rps_of (now : Q) (data : list Sample) : value :=
  let last60 := filter (fun d => Qle_bool (now - inject_Z 60) (s_t d)) data in
  if is_nil last60 then VInt 0
  else VFloat (inject_Z (len last60) / inject_Z 60).

Definition jitter_of (durations : list Z) : value :=
  let diffs := Spec.absdiffs durations in
  if is_nil diffs then VInt 0
  else VFloat (inject_Z (Py.sum diffs) / inject_Z (len diffs)).

Definition error_rate_of (data : list Sample) : value :=
  let errors := Py.sum (map (fun _ => 1) (filter (fun d => 400 <=? s_status d) data)) in
  VFloat (inject_Z errors / inject_Z (len data)).

Definition metrics_of (now : Q) (data : list Sample) : value :=
  let durations := sorted (map s_duration_ms data) in
  VDict [
    ("count", VInt (len data));
    ("error_rate", round_ndigits (error_rate_of data) 4);
    ("rps_last_60s", round_ndigits (rps_of now data) 3);
    ("latency_ms", latency_of durations);
    ("jitter_ms_avg_absdiff", round_ndigits (jitter_of durations) 2);
    ("qos_policy", VDict [
      ("token_bucket", VDict [("tokens_per_sec", VInt 5); ("burst", VInt 10)])
    ])
  ]%string.

(** The accounting behind the rate limit, for calls made no later than
    [t0 + T] on a bucket created at [t0]: with [c] calls allowed so far, the
    tokens held plus the tokens spent never exceed the burst plus what the
    elapsed time has earned. *)
Definition rate_inv (t0 T : Q) (c : Z) (g : Globals) : Prop :=
  0 <= tokens g /\
  (inject_Z (tokens g + c) <= 10 + 5 * (last_refill g - t0))%Q /\
  (last_refill g <= t0 + T)%Q.

(** ** Example states *)

(** 2005 calls numbered 0 .. 2004: the first retained sample is number 5. *)
Definition numbered_calls (n : nat) : list record_call :=
  map (fun i => (inject_Z (Z.of_nat i), "/slow"%string, Z.of_nat i, 200)) (seq 0 n).

(** A window of samples [(t, duration_ms, status)] with a partly used bucket. *)
Definition window_of (l : list (Z * Z * Z)) : Globals :=
  {| WINDOW := mkDeque 2000
       (map (fun '(t, d, st) => mkSample (inject_Z t) "/slow" d st) l);
     tokens := 3; last_refill := 0 |}.

(** The durations [10, 20, 30, 40, 50]: [p50] is 30 and [max] is 50. *)
Definition five_samples : Globals :=
  window_of [(1, 10, 200); (2, 20, 200); (3, 30, 200); (4, 40, 200); (5, 50, 200)].

(** Durations 10, 50, 20 in time order: the consecutive differences of the
    sorted list are 10 and 30 (mean 20); those of the time-ordered sequence
    would be 40 and 30 (mean 35). *)
Definition three_samples : Globals :=
  window_of [(1, 10, 200); (2, 50, 200); (3, 20, 200)].

(** Two samples, one 10 seconds old and one 100 seconds old: one sample
    counts, and the reported rate is 1/60 rounded, 0.017. *)
Definition old_and_recent : Globals :=
  window_of [(0, 30, 200); (90, 40, 200)].

(** Four samples with statuses 200, 404, 200, 500: the error rate is 0.5. *)
Definition four_statuses : Globals :=
  window_of [(1, 12, 200); (2, 7, 404); (3, 30, 200); (4, 9, 500)].

(** A drained bucket (after eleven admissions at one instant) still reports
    the configured burst of 10. *)
Definition drained_with_samples : Globals :=
  snd (admit_all (repeat 0%Q 11) five_samples).

(** ** Request handlers

    The Flask layer around the core.  A response is modelled by its status
    code, its JSON body and the headers the application sets on it (those
    the framework adds are left out).  Query arguments enter as the numbers
    they parse to, and [random.random()] and [random.randint] as their
    draws. *)

#[warnings="-register-all"]
Inductive json : Type :=
| JBool (b : bool)
| JInt (z : Z)
| JFloat (q : Q)
| JStr (s : string)
| JDict (fields : list (string * json)).

Fixpoint to_json (v : value) : json :=
  match v with
  | VInt z => JInt z
  | VFloat q => JFloat q
  | VDict items =>
      JDict ((fix go (l : list (string * value)) : list (string * json) :=
                match l with
                | [] => []
                | (k, x) :: rest => (k, to_json x) :: go rest
                end) items)
  end.

Record Response : Type := mkResponse {
  status_code : Z;
  body : json;
  headers : list (string * string)
}.

(** [jsonify(x)]: a 200 response with body [x]. *)
Definition jsonify (x : json) : Response :=
  {| status_code := 200; body := x; headers := [] |}.

(** [make_response(resp, status)] and the view return [resp, status]. *)
Definition with_status (resp : Response) (status : Z) : Response :=
  {| status_code := status; body := body resp; headers := headers resp |}.

(** [hs[k] = v] on the headers: the first entry for [k] is replaced and any
    later one dropped; without one the pair is appended. *)
Fixpoint headers_set (k v : string) (hs : list (string * string)) : list (string * string) :=
  match hs with
  | [] => [(k, v)]
  | (k', v') :: rest =>
      if String.eqb k' k
      then (k, v) :: filter (fun kv => negb (String.eqb (fst kv) k)) rest
      else (k', v') :: headers_set k v rest
  end.

Definition set_header (k v : string) (resp : Response) : Response :=
  {| status_code := status_code resp; body := body resp;
     headers := headers_set k v (headers resp) |}.

(** [str(z)] on an int. *)
Definition str (z : Z) : string := DecimalString.NilZero.string_of_int (Z.to_int z).

(** The request object, as far as the handlers use it: [request.path] and
    the attribute [request._t0], absent until [start_timer] sets it. *)
Record Request : Type := mkRequest {
  path : string;
  _t0 : option Q
}.

(** [now_ms()], with [t] the clock reading. *)
Definition now_ms (t : Q) : Z := Py.int (t * inject_Z 1000).

(** [start_timer()], the [before_request] hook. *)
Definition start_timer (t : Q) (req : Request) : Request :=
  {| path := path req; _t0 := Some t |}.

(** The clock readings and the random draw of one [end_timer] call, in the
    order the call makes them: the left operand of the subtraction, the
    default argument of [getattr] (evaluated whether it is used or not), the
    reading inside [record], the reading inside [now_ms], and
    [random.randint(1000, 9999)]. *)
Record EndInputs : Type := mkEndInputs {
  t_end : Q;
  t_default : Q;
  t_record : Q;
  t_id : Q;
  rand_id : Z
}.

(** [end_timer(response)], the [after_request] hook. *)
Definition end_timer (i : EndInputs) (req : Request) (response : Response) : Py Response :=
  let t0 := match _t0 req with Some t => t | None => t_default i end in
  let duration_ms := Py.int ((t_end i - t0) * inject_Z 1000) in
  record (t_record i) (path req) duration_ms (status_code response) ;;
  let response := set_header "X-Service-Name"%string "network-lab"%string response in
  let response := set_header "X-Service-Version"%string "1.0"%string response in
  let response :=
    set_header "X-Request-Id"%string (str (now_ms (t_id i)) ++ "-" ++ str (rand_id i))%string response in
  ret response.

(** The 429 answer that [slow] and [loss] build when [qos_admit] denies. *)
Definition rate_limited (retry_after : Z) : Response :=
  let resp :=
    with_status
      (jsonify (JDict [("error"%string, JStr "rate_limited"%string); ("retry_after_s"%string, JInt retry_after)]))
      429 in
  set_header "Retry-After"%string (str retry_after) resp.

(** [slow()], with [t] the clock reading of [qos_admit] and [ms] the int
    that the query argument [ms] (default ["200"]) parses to.  [None]
    stands for the [ValueError] that [time.sleep] raises on a negative
    length. *)
Definition slow (t : Q) (ms : Z) : Py (option Response) :=
  r <- qos_admit t ;;
  let '(allowed, retry_after) := r in
  if negb allowed then ret (Some (rate_limited retry_after))
  else if ms <? 0 then ret None
  else ret (Some (jsonify (JDict [("ok"%string, JBool true); ("simulated_processing_ms"%string, JInt ms)]))).

(** [loss()], with [p] the float that the query argument [p] (default
    ["0.1"]) parses to and [u] the value of [random.random()]. *)
Definition loss (t : Q) (p u : Q) : Py Response :=
  r <- qos_admit t ;;
  let '(allowed, retry_after) := r in
  if negb allowed then ret (rate_limited retry_after)
  else if negb (Qle_bool p u)
       then ret (with_status
                   (jsonify (JDict [("ok"%string, JBool false); ("simulated"%string, JStr "loss/error"%string)]))
                   503)
       else ret (jsonify (JDict [("ok"%string, JBool true); ("simulated"%string, JStr "no_loss"%string)])).

(** [qos()], the [/qos] view. *)
Definition qos (now : Q) : Py Response :=
  v <- compute_metrics now ;;
  ret (jsonify (to_json v)).

(** The [/qos/reset] view: [qos_reset] above is its [WINDOW.clear()]. *)
Definition qos_reset_view : Py Response :=
  qos_reset ;;
  ret (jsonify (JDict [("ok"%string, JBool true); ("message"%string, JStr "metrics window cleared"%string)])).

(** One request through Flask: the [before_request] hook, the view, then the
    [after_request] hook on the response the view returned. *)
Definition serve (t_start : Q) (url : string) (view : Py Response) (i : EndInputs) : Py Response :=
  let req := start_timer t_start (mkRequest url None) in
  response <- view ;;
  end_timer i req response.

(** The readings of an [end_timer] call made 0.25 s after time 10. *)
Definition end_inputs : EndInputs :=
  {| t_end := 1025 # 100; t_default := 1025 # 100; t_record := 1025 # 100;
     t_id := 1025 # 100; rand_id := 4242 |}.

(** ** Sequences of calls to the core *)

(** One call of the four state-touching functions, with the clock reading
    it makes. *)
Inductive call : Type :=
| Admit (t : Q)
| Record (t : Q) (endpoint : string) (duration_ms status : Z)
| Metrics (now : Q)
| Reset.

Definition step (c : call) (g : Globals) : Globals :=
  match c with
  | Admit t => snd (qos_admit t g)
  | Record t endpoint duration_ms status => snd (record t endpoint duration_ms status g)
  | Metrics now => snd (compute_metrics now g)
  | Reset => snd (qos_reset g)
  end.

Definition run (cs : list call) (g : Globals) : Globals :=
  fold_left (fun g c => step c g) cs g.

(** What holds of the globals in every reachable state. *)
Definition state_ok (g : Globals) : Prop :=
  0 <= tokens g <= BURST /\
  maxlen (WINDOW g) = 2000%nat /\
  (length (items (WINDOW g)) <= 2000)%nat.

(** Number of [(True, _)] results in a list of [qos_admit] results. *)
Fixpoint allowed_count (rs : list (outcome (bool * Z))) : Z :=
  match rs with
  | [] => 0
  | Returns (true, _) :: rest => 1 + allowed_count rest
  | _ :: rest => allowed_count rest
  end.

(** Largest and smallest element of a list of ints ([0] on the empty list). *)
Definition maximum (l : list Z) : Z :=
  match l with
  | [] => 0
  | a :: rest => fold_left Z.max rest a
  end.

Definition minimum (l : list Z) : Z :=
  match l with
  | [] => 0
  | a :: rest => fold_left Z.min rest a
  end.

(** ** Arithmetic of [int] and [round] *)

Section Rounding.
Local Open Scope Q_scope.

Lemma Qfloor_unfold (x : Q) : Qfloor x = (Qnum x / Zpos (Qden x))%Z.
Proof. destruct x; reflexivity. Qed.

(** On non-negative floats truncation is the floor. *)
Lemma int_floor_nonneg (x : Q) : (0 <= Qnum x)%Z -> Py.int x = Qfloor x.
Proof.
  intros H. unfold Py.int. rewrite Qfloor_unfold.
  apply Z.quot_div_nonneg; lia.
Qed.

Lemma int_nonpos (x : Q) : (Qnum x <= 0)%Z -> (Py.int x <= 0)%Z.
Proof.
  intros H. unfold Py.int.
  apply Z.quot_le_upper_bound; lia.
Qed.

Lemma floor_neg (x : Q) : (Qnum x < 0)%Z -> (Qfloor x < 0)%Z.
Proof.
  intros H. rewrite Qfloor_unfold.
  apply Z.div_lt_upper_bound; lia.
Qed.

(** [int] and the floor agree on which inputs give a positive result, and
    on that result. *)
Lemma int_pos_floor (x : Q) : (0 < Qfloor x)%Z -> Py.int x = Qfloor x.
Proof.
  intros H. destruct (Z_lt_le_dec (Qnum x) 0) as [Hn | Hn].
  - apply floor_neg in Hn. lia.
  - now apply int_floor_nonneg.
Qed.

Lemma int_floor_zero (x : Q) : Qfloor x = 0%Z -> Py.int x = 0%Z.
Proof.
  intros H. destruct (Z_lt_le_dec (Qnum x) 0) as [Hn | Hn].
  - apply floor_neg in Hn. lia.
  - rewrite int_floor_nonneg; assumption.
Qed.

Lemma int_floor_neg (x : Q) : (Qfloor x < 0)%Z -> (Py.int x <= 0)%Z.
Proof.
  intros H. destruct (Z_lt_le_dec 0 (Qnum x)) as [Hn | Hn].
  - rewrite int_floor_nonneg by lia. lia.
  - now apply int_nonpos.
Qed.

End Rounding.

(** ** Token bucket: refill *)

Lemma Globals_eta (g : Globals) : with_bucket g (tokens g) (last_refill g) = g.
Proof. destruct g; reflexivity. Qed.

(** [refill_tokens] in closed form: it never raises, and it rewrites the
    bucket exactly when the truncated product is positive. *)
Lemma refill_tokens_eq (t : Q) (g : Globals) :
  refill_tokens t g =
  (Returns tt,
   let add := Py.int ((t - last_refill g) * inject_Z TOKENS_PER_SEC) in
   if 0 <? add then with_bucket g (Z.min BURST (tokens g + add)) t else g).
Proof.
  unfold refill_tokens, bind, read, ret, set_tokens, set_last_refill; cbn.
  destruct (0 <? _); reflexivity.
Qed.

Lemma qos_admit_eq (t : Q) (g : Globals) :
  qos_admit t g =
  let g1 := snd (refill_tokens t g) in
  if 0 <? tokens g1
  then (Returns (true, 0), with_bucket g1 (tokens g1 - 1) (last_refill g1))
  else (Returns (false, 1), g1).
Proof.
  unfold qos_admit, bind. rewrite refill_tokens_eq; cbn.
  unfold read, set_tokens, ret. destruct (0 <? tokens _); reflexivity.
Qed.

(** C4.  For every call of [refill_tokens] at clock reading [now], with
    [elapsed = now - last_refill] and [add = floor(elapsed * TOKENS_PER_SEC)]:
    when [add > 0] the token count becomes [min(BURST, tokens + add)] and
    [last_refill] becomes [now]; when [add = 0] the token count and
    [last_refill] are both left as they were, so the fraction of a token that
    had accrued is not carried into the state.  The call never raises and
    never touches the window. *)
Theorem refill_tokens_floor (now : Q) (g : Globals) :
  let elapsed := (now - last_refill g)%Q in
  let add := Qfloor (elapsed * inject_Z TOKENS_PER_SEC) in
  let g' := snd (refill_tokens now g) in
  fst (refill_tokens now g) = Returns tt /\
  WINDOW g' = WINDOW g /\
  (0 < add -> tokens g' = Z.min BURST (tokens g + add) /\ last_refill g' = now) /\
  (add = 0 -> tokens g' = tokens g /\ last_refill g' = last_refill g).
Proof.
  intros elapsed add g'. subst g'. rewrite refill_tokens_eq.
  cbv beta iota zeta delta [fst snd]. fold elapsed.
  split; [reflexivity|]. split.
  - destruct (0 <? _); reflexivity.
  - split; intros Hadd.
    + rewrite (int_pos_floor _ Hadd). fold add.
      apply Z.ltb_lt in Hadd. rewrite Hadd. split; reflexivity.
    + rewrite (int_floor_zero _ Hadd). split; reflexivity.
Qed.

(** A negative elapsed time (the clock stepped back) also leaves the bucket
    alone: [int] truncates toward zero where the floor would be negative. *)
Lemma refill_tokens_clock_back (now : Q) (g : Globals) :
  Qfloor ((now - last_refill g) * inject_Z TOKENS_PER_SEC) < 0 ->
  snd (refill_tokens now g) = g.
Proof.
  intros H. rewrite refill_tokens_eq. cbv beta iota zeta delta [snd].
  apply int_floor_neg in H.
  destruct (0 <? _) eqn:E; [apply Z.ltb_lt in E; lia | reflexivity].
Qed.

Lemma refill_tokens_floor_witness :
  let g := with_bucket (module_init 0) 3 0 in
  tokens (snd (refill_tokens (1 # 2) g)) = 5 /\
  last_refill (snd (refill_tokens (1 # 2) g)) = (1 # 2)%Q /\
  tokens (snd (refill_tokens (1 # 10) g)) = 3 /\
  last_refill (snd (refill_tokens (1 # 10) g)) = 0%Q.
Proof.
  intros g.
  destruct (refill_tokens_floor (1 # 2) g) as (_ & _ & Hpos & _).
  destruct (refill_tokens_floor (1 # 10) g) as (_ & _ & _ & Hzero).
  destruct Hpos as [H1 H2]; [reflexivity|].
  destruct Hzero as [H3 H4]; [reflexivity|].
  repeat split; assumption.
Defined.

(** ** Token bucket: bounds *)

Lemma refill_tokens_ok (t : Q) (g : Globals) :
  bucket_ok g -> bucket_ok (snd (refill_tokens t g)).
Proof.
  unfold bucket_ok. rewrite refill_tokens_eq. cbv beta iota zeta delta [snd].
  generalize (Py.int ((t - last_refill g) * inject_Z TOKENS_PER_SEC)); intros add.
  destruct (0 <? add) eqn:E; cbn; [apply Z.ltb_lt in E | trivial].
  unfold BURST. lia.
Qed.

Lemma qos_admit_ok (t : Q) (g : Globals) :
  bucket_ok g -> bucket_ok (snd (qos_admit t g)).
Proof.
  intros H. apply (refill_tokens_ok t) in H. rewrite qos_admit_eq.
  cbv zeta. revert H. generalize (snd (refill_tokens t g)); intros g1.
  unfold bucket_ok, BURST.
  destruct (0 <? tokens g1) eqn:E; cbn; [apply Z.ltb_lt in E; lia | trivial].
Qed.

Lemma qos_admit_returns (t : Q) (g : Globals) :
  exists r, fst (qos_admit t g) = Returns r.
Proof.
  rewrite qos_admit_eq. cbv zeta.
  destruct (0 <? tokens _); eexists; reflexivity.
Qed.

Lemma admit_states_ok (ts : list Q) :
  forall g, bucket_ok g -> Forall bucket_ok (admit_states ts g).
Proof.
  induction ts as [| t rest IH]; intros g Hg; cbn.
  - constructor; [assumption | constructor].
  - constructor; [assumption |]. apply IH. now apply qos_admit_ok.
Qed.

Lemma admit_states_length (ts : list Q) :
  forall g, length (admit_states ts g) = S (length ts).
Proof.
  induction ts as [| t rest IH]; intros g; cbn; [reflexivity |].
  now rewrite IH.
Qed.

(** C1.  Starting from the initial state [tokens = BURST], for every sequence
    of clock readings at which [qos_admit()] is called (non-decreasing or
    not), every state observed before the first call and after each call
    satisfies [0 <= tokens <= BURST]; there is one such state per call plus
    the initial one. *)
Theorem bucket_bounds (t0 : Q) (ts : list Q) :
  Forall (fun g => 0 <= tokens g <= BURST) (admit_states ts (module_init t0)) /\
  length (admit_states ts (module_init t0)) = S (length ts).
Proof.
  split.
  - apply (admit_states_ok ts). unfold bucket_ok, module_init, BURST; cbn. lia.
  - apply admit_states_length.
Qed.

(** ** Token bucket: calls at one instant *)

Lemma int_zero_diff (t : Q) (k : Z) : Py.int ((t - t) * inject_Z k) = 0.
Proof.
  unfold Py.int. destruct t as [n d]; cbn.
  replace ((n * Z.pos d + - n * Z.pos d) * k) with 0 by ring.
  reflexivity.
Qed.

Lemma refill_tokens_settles (t : Q) (g : Globals) :
  settled t (snd (refill_tokens t g)).
Proof.
  unfold settled. rewrite refill_tokens_eq. cbv beta iota zeta delta [snd].
  destruct (0 <? _) eqn:E.
  - unfold with_bucket; cbv beta iota delta [last_refill]. rewrite int_zero_diff. lia.
  - apply Z.ltb_ge in E. exact E.
Qed.

Lemma refill_tokens_settled (t : Q) (g : Globals) :
  settled t g -> snd (refill_tokens t g) = g.
Proof.
  unfold settled. intros H. rewrite refill_tokens_eq. cbv beta iota zeta delta [snd].
  destruct (0 <? _) eqn:E; [apply Z.ltb_lt in E; lia | reflexivity].
Qed.

(** [n] calls at one instant [t] on a settled bucket holding [m] tokens:
    the first [min n m] are allowed, the others denied, and exactly the
    allowed ones take a token. *)
Lemma admit_all_same_instant (t : Q) (n : nat) :
  forall g, settled t g -> 0 <= tokens g ->
  let m := Z.to_nat (tokens g) in
  admit_all (repeat t n) g =
  (repeat (Returns (true, 0)) (Nat.min n m) ++ repeat (Returns (false, 1)) (n - m),
   with_bucket g (tokens g - Z.of_nat (Nat.min n m)) (last_refill g)).
Proof.
  induction n as [| n IH]; intros g Hs Hnn m.
  - cbn. rewrite Z.sub_0_r, Globals_eta. reflexivity.
  - cbn [repeat admit_all]. rewrite qos_admit_eq. cbv zeta.
    rewrite (refill_tokens_settled t g Hs).
    destruct (0 <? tokens g) eqn:E.
    + apply Z.ltb_lt in E.
      set (g' := with_bucket g (tokens g - 1) (last_refill g)).
      assert (Hs' : settled t g') by exact Hs.
      assert (Hnn' : 0 <= tokens g') by (cbn; lia).
      rewrite (IH g' Hs' Hnn'). cbv zeta.
      assert (Hm : m = S (Z.to_nat (tokens g'))) by (subst m; cbn; lia).
      rewrite Hm. cbn [Nat.min Nat.sub repeat app]. f_equal.
      unfold with_bucket, g'; cbn. f_equal. lia.
    + apply Z.ltb_ge in E.
      rewrite (IH g Hs Hnn). cbv zeta. fold m.
      assert (Hm : m = 0%nat) by (subst m; lia).
      rewrite Hm, !Nat.min_0_r, !Nat.sub_0_r. reflexivity.
Qed.

Lemma int_lower_bound (x : Q) (k : Z) :
  0 <= k -> (inject_Z k <= x)%Q -> k <= Py.int x.
Proof.
  intros Hk Hx.
  assert (Hn : 0 <= Qnum x).
  { assert (H0 : (0 <= x)%Q).
    { apply Qle_trans with (inject_Z k); [| assumption].
      change 0%Q with (inject_Z 0). now rewrite <- Zle_Qle. }
    unfold Qle in H0; cbn in H0. lia. }
  rewrite (int_floor_nonneg x Hn).
  rewrite <- (Qfloor_Z k). now apply Qfloor_resp_le.
Qed.

Lemma refill_tokens_full (t : Q) (g : Globals) :
  tokens g = BURST -> tokens (snd (refill_tokens t g)) = BURST.
Proof.
  intros H. rewrite refill_tokens_eq. cbv beta iota zeta delta [snd].
  generalize (Py.int ((t - last_refill g) * inject_Z TOKENS_PER_SEC)); intros add.
  destruct (0 <? add) eqn:E; cbn; [apply Z.ltb_lt in E | assumption].
  rewrite H. unfold BURST. lia.
Qed.

Lemma refill_tokens_last_le (t : Q) (g : Globals) :
  (last_refill g <= t)%Q -> (last_refill (snd (refill_tokens t g)) <= t)%Q.
Proof.
  intros H. rewrite refill_tokens_eq. cbv beta iota zeta delta [snd].
  destruct (0 <? _); cbn; [apply Qle_refl | assumption].
Qed.

(** The refill inside [qos_admit] is idempotent at one instant. *)
Lemma qos_admit_after_refill (t : Q) (g : Globals) :
  qos_admit t g = qos_admit t (snd (refill_tokens t g)).
Proof.
  rewrite (qos_admit_eq t (snd (refill_tokens t g))).
  rewrite (refill_tokens_settled t _ (refill_tokens_settles t g)).
  apply qos_admit_eq.
Qed.

Lemma admit_all_app (a b : list Q) :
  forall g, admit_all (a ++ b) g =
            (fst (admit_all a g) ++ fst (admit_all b (snd (admit_all a g))),
             snd (admit_all b (snd (admit_all a g)))).
Proof.
  induction a as [| t a IH]; intros g; cbn.
  - now destruct (admit_all b g).
  - destruct (qos_admit t g) as [r g']. rewrite IH.
    destruct (admit_all a g') as [ra ga]; cbn.
    destruct (admit_all b ga); reflexivity.
Qed.

(** After one second or more past the last refill, a drained bucket admits. *)
Lemma qos_admit_recovers (t' : Q) (g : Globals) :
  0 <= tokens g -> (last_refill g + 1 <= t')%Q ->
  fst (qos_admit t' g) = Returns (true, 0).
Proof.
  intros Htk Hlate. rewrite qos_admit_eq, refill_tokens_eq.
  cbv beta iota zeta delta [snd].
  assert (Hadd : 5 <= Py.int ((t' - last_refill g) * inject_Z TOKENS_PER_SEC)).
  { apply int_lower_bound; [lia |]. unfold TOKENS_PER_SEC.
    change (inject_Z 5) with (5 # 1)%Q. lra. }
  revert Hadd.
  generalize (Py.int ((t' - last_refill g) * inject_Z TOKENS_PER_SEC)); intros add Hadd.
  assert (E : (0 <? add) = true) by (apply Z.ltb_lt; lia).
  rewrite E. cbn [with_bucket tokens].
  assert (E' : (0 <? Z.min BURST (tokens g + add)) = true)
    by (apply Z.ltb_lt; unfold BURST; lia).
  rewrite E'. reflexivity.
Qed.

(** C2.  A fresh bucket (burst 10, 5 tokens per second) created at [t0]: 10
    calls of [qos_admit()] at one instant [t] all return [(True, 0)], an 11th
    call at that instant returns [(False, 1)], and a call at any [t'] at
    least one second later returns [(True, 0)] again. *)
Theorem starvation_recovery (t0 t t' : Q) :
  (t0 <= t)%Q -> (t + 1 <= t')%Q ->
  fst (admit_all (repeat t 11 ++ [t']) (module_init t0)) =
  repeat (Returns (true, 0)) 10 ++ [Returns (false, 1); Returns (true, 0)].
Proof.
  intros H0 H1. rewrite admit_all_app. cbv beta iota delta [fst].
  set (g1 := snd (refill_tokens t (module_init t0))).
  assert (Hfull : tokens g1 = 10) by (apply refill_tokens_full; reflexivity).
  assert (Hlast : (last_refill g1 <= t)%Q) by (apply refill_tokens_last_le; exact H0).
  assert (Hrun : admit_all (repeat t 11) (module_init t0) = admit_all (repeat t 11) g1).
  { cbn [repeat admit_all]. now rewrite (qos_admit_after_refill t (module_init t0)). }
  rewrite Hrun.
  rewrite (admit_all_same_instant t 11 g1 (refill_tokens_settles t _)) by lia.
  cbv zeta. rewrite Hfull.
  change (Z.to_nat 10) with 10%nat.
  change (Nat.min 11 10) with 10%nat. change (11 - 10)%nat with 1%nat.
  change (10 - Z.of_nat 10) with 0.
  cbn [admit_all fst snd].
  set (g2 := with_bucket g1 _ _).
  assert (Hrec : fst (qos_admit t' g2) = Returns (true, 0)).
  { apply qos_admit_recovers; subst g2; cbn [with_bucket tokens last_refill].
    - lia.
    - lra. }
  destruct (qos_admit t' g2) as [r g3]; cbn in Hrec |- *. rewrite Hrec.
  reflexivity.
Qed.

Lemma starvation_recovery_witness :
  fst (admit_all (repeat 0%Q 11 ++ [1%Q]) (module_init 0)) =
  repeat (Returns (true, 0)) 10 ++ [Returns (false, 1); Returns (true, 0)].
Proof.
  apply (starvation_recovery 0 0 1); unfold Qle; cbn; lia.
Defined.

(** ** Window: bounded append *)

Lemma tl_app_cons {A : Type} (l xs : list A) (x : A) :
  tl (l ++ [x]) ++ xs = tl (l ++ x :: xs).
Proof. destruct l; cbn; [reflexivity | now rewrite <- app_assoc]. Qed.

Lemma skipn_S_tl {A : Type} (n : nat) (l : list A) :
  skipn (S n) l = skipn n (tl l).
Proof. destruct l; cbn; [now rewrite skipn_nil | reflexivity]. Qed.

Lemma length_tl {A : Type} (l : list A) : length (tl l) = pred (length l).
Proof. destruct l; reflexivity. Qed.

(** A deque within its bound stays within it, and after appending [xs] it
    holds the last [maxlen] items of everything it was given. *)
Lemma deque_extend_items {A : Type} (xs : list A) :
  forall d : deque A,
    (length (items d) <= maxlen d)%nat ->
    maxlen (deque_extend xs d) = maxlen d /\
    items (deque_extend xs d) =
    skipn (length (items d ++ xs) - maxlen d) (items d ++ xs).
Proof.
  induction xs as [| x xs IH]; intros d Hd.
  - cbn. rewrite app_nil_r. split; [reflexivity |].
    replace (length (items d) - maxlen d)%nat with 0%nat by lia. reflexivity.
  - cbn [deque_extend fold_left]. fold (deque_extend xs (deque_append x d)).
    assert (Hlen : length (items d ++ [x]) = S (length (items d)))
      by (rewrite length_app; cbn; lia).
    destruct (IH (deque_append x d)) as [Hmax Hitems].
    { unfold deque_append; cbn [items maxlen]. rewrite Hlen.
      destruct (maxlen d <? S (length (items d)))%nat eqn:E.
      - rewrite length_tl, Hlen. cbn. exact Hd.
      - apply Nat.ltb_ge in E. rewrite Hlen. exact E. }
    split; [exact Hmax |]. rewrite Hitems.
    unfold deque_append; cbn [items maxlen]. rewrite Hlen.
    destruct (maxlen d <? S (length (items d)))%nat eqn:E.
    + apply Nat.ltb_lt in E. assert (Heq : length (items d) = maxlen d) by lia.
      rewrite tl_app_cons.
      replace (length (items d ++ x :: xs) - maxlen d)%nat with (S (length xs))
        by (rewrite length_app; cbn; lia).
      rewrite skipn_S_tl. f_equal.
      rewrite length_tl, length_app. cbn. lia.
    + rewrite <- app_assoc. reflexivity.
Qed.

Lemma WINDOW_record_all (calls : list record_call) :
  forall g, WINDOW (record_all calls g) = deque_extend (map sample_of calls) (WINDOW g).
Proof.
  induction calls as [| c calls IH]; intros g; [reflexivity |].
  unfold record_all in *. cbn [fold_left map deque_extend].
  rewrite IH. destruct c as [[[t e] d] s]. reflexivity.
Qed.

(** C5.  For every [k >= 1], after [2000 + k] calls of [record] on the
    initially empty window of bound 2000, the window holds exactly 2000
    samples: the last 2000 recorded, in insertion order.  The [k] oldest are
    gone. *)
Theorem window_eviction (k : nat) (calls : list record_call) (t0 : Q) :
  (1 <= k)%nat -> length calls = (2000 + k)%nat ->
  let w := items (WINDOW (record_all calls (module_init t0))) in
  length w = 2000%nat /\
  w = skipn k (map sample_of calls) /\
  firstn k (map sample_of calls) ++ w = map sample_of calls.
Proof.
  intros _ Hlen w.
  assert (Hw : w = skipn k (map sample_of calls)).
  { subst w. rewrite WINDOW_record_all.
    destruct (deque_extend_items (map sample_of calls) (WINDOW (module_init t0)))
      as [_ Hitems]; [cbn; lia |].
    rewrite Hitems. cbn [module_init WINDOW items maxlen app].
    rewrite length_map, Hlen. f_equal. lia. }
  split; [| split].
  - rewrite Hw, length_skipn, length_map, Hlen. lia.
  - exact Hw.
  - rewrite Hw. apply firstn_skipn.
Qed.

Lemma window_eviction_witness :
  let w := items (WINDOW (record_all (numbered_calls 2005) (module_init 0))) in
  length w = 2000%nat /\
  w = skipn 5 (map sample_of (numbered_calls 2005)) /\
  firstn 5 (map sample_of (numbered_calls 2005)) ++ w = map sample_of (numbered_calls 2005).
Proof.
  apply (window_eviction 5 (numbered_calls 2005) 0).
  - lia.
  - vm_compute. reflexivity.
Defined.

Example window_eviction_first_retained :
  option_map s_duration_ms
    (hd_error (items (WINDOW (record_all (numbered_calls 2005) (module_init 0))))) = Some 5.
Proof. vm_compute. reflexivity. Qed.

(** ** Rounding is to nearest *)

Section RoundNearest.
Local Open Scope Q_scope.

Lemma round_nearest (x : Q) : Spec.nearest_int x (Py.round x).
Proof.
  unfold Spec.nearest_int, Py.round.
  pose proof (Qfloor_le x) as Hlo. pose proof (Qlt_floor x) as Hhi.
  rewrite inject_Z_plus in Hhi. change (inject_Z 1) with 1 in Hhi.
  set (f := Qfloor x) in *.
  apply Qabs_Qle_condition.
  destruct (x - inject_Z f ?= 1 # 2) eqn:E.
  - apply Qeq_alt in E. destruct (Z.even f).
    + split; lra.
    + rewrite inject_Z_plus. change (inject_Z 1) with 1. split; lra.
  - apply Qlt_alt in E. split; lra.
  - apply Qgt_alt in E. rewrite inject_Z_plus. change (inject_Z 1) with 1.
    split; lra.
Qed.

Lemma pow10_pos (n : nat) : 0 < inject_Z (10 ^ Z.of_nat n).
Proof.
  change 0 with (inject_Z 0). rewrite <- Zlt_Qlt.
  apply Z.pow_pos_nonneg; lia.
Qed.

Lemma round_float_rounded (x : Q) (n : nat) :
  Spec.rounded_to n x (Py.round_float x n).
Proof.
  unfold Spec.rounded_to, Py.round_float, Py.pow10.
  pose proof (pow10_pos n) as HP.
  set (P := inject_Z (10 ^ Z.of_nat n)) in *.
  pose proof (round_nearest (x * P)) as Hr. unfold Spec.nearest_int in Hr.
  set (k := inject_Z (Py.round (x * P))) in *.
  split; [eexists; reflexivity |].
  apply Qabs_Qle_condition in Hr. destruct Hr as [Hr1 Hr2].
  apply Qabs_Qle_condition.
  assert (HPne : ~ P == 0) by lra.
  split.
  - apply (Qmult_le_r _ _ P HP).
    setoid_replace (- (1 / (2 * P)) * P) with (- (1 # 2)) by (field; exact HPne).
    setoid_replace ((x - k / P) * P) with (x * P - k) by (field; exact HPne).
    exact Hr1.
  - apply (Qmult_le_r _ _ P HP).
    setoid_replace (1 / (2 * P) * P) with (1 # 2) by (field; exact HPne).
    setoid_replace ((x - k / P) * P) with (x * P - k) by (field; exact HPne).
    exact Hr2.
Qed.

End RoundNearest.

(** ** Lists: indexing, sorting *)

Lemma getitem_in_range {A : Type} (l : list A) (i : Z) (d : A) :
  0 <= i < len l -> getitem l i = Returns (nth (Z.to_nat i) l d).
Proof.
  intros [Hlo Hhi]. unfold getitem.
  destruct (i <? 0) eqn:E1; [apply Z.ltb_lt in E1; lia |].
  rewrite E1. cbn [orb].
  destruct (len l <=? i) eqn:E2; [apply Z.leb_le in E2; lia |].
  destruct (nth_error l (Z.to_nat i)) as [a |] eqn:E3.
  - now rewrite (nth_error_nth _ _ d E3).
  - apply nth_error_None in E3. unfold len in Hhi. lia.
Qed.

Lemma nth_length_pred {A : Type} (l : list A) (d : A) :
  nth (length l - 1) l d = last l d.
Proof.
  induction l as [| a l IH]; [reflexivity |].
  destruct l as [| b l]; [reflexivity |].
  change (last (a :: b :: l) d) with (last (b :: l) d). rewrite <- IH.
  cbn [length Nat.sub nth]. now rewrite Nat.sub_0_r.
Qed.

Lemma getitem_last {A : Type} (l : list A) (d : A) :
  l <> [] -> getitem l (-1) = Returns (last l d).
Proof.
  intros Hne.
  assert (Hlen : (0 < length l)%nat) by (destruct l; [congruence | cbn; lia]).
  unfold getitem. change (-1 <? 0) with true. cbv iota.
  destruct (-1 + len l <? 0) eqn:E1; [apply Z.ltb_lt in E1; unfold len in E1; lia |].
  cbn [orb].
  destruct (len l <=? -1 + len l) eqn:E2; [apply Z.leb_le in E2; lia |].
  replace (Z.to_nat (-1 + len l)) with (length l - 1)%nat by (unfold len; lia).
  destruct (nth_error l (length l - 1)) as [a |] eqn:E3.
  - rewrite <- nth_length_pred. now rewrite (nth_error_nth _ _ d E3).
  - apply nth_error_None in E3. lia.
Qed.

Lemma mapM_map {A B : Type} (f : A -> outcome B) (g : A -> B) (l : list A) :
  (forall a, In a l -> f a = Returns (g a)) -> mapM f l = Returns (map g l).
Proof.
  induction l as [| a l IH]; intros H; cbn; [reflexivity |].
  rewrite (H a (or_introl eq_refl)), IH; [reflexivity |].
  intros b Hb. apply H. now right.
Qed.

Lemma absdiffs_by_index (l : list Z) :
  map (fun k => Z.abs (nth (S k) l 0 - nth k l 0)) (seq 0 (length l - 1)) =
  Spec.absdiffs l.
Proof.
  induction l as [| a l IH]; [reflexivity |].
  destruct l as [| b l]; [reflexivity |].
  change (length (a :: b :: l) - 1)%nat with (S (length l)).
  cbn [seq map]. change (nth 1 (a :: b :: l) 0) with b.
  change (nth 0 (a :: b :: l) 0) with a.
  change (Spec.absdiffs (a :: b :: l))
    with (Z.abs (b - a) :: Spec.absdiffs (b :: l)).
  f_equal. rewrite <- IH. rewrite <- seq_shift, map_map.
  replace (length (b :: l) - 1)%nat with (length l) by (cbn; lia).
  reflexivity.
Qed.

(** The comprehension never raises and yields the consecutive differences. *)
Lemma consecutive_diffs_eq (l : list Z) :
  consecutive_diffs l = Returns (Spec.absdiffs l).
Proof.
  unfold consecutive_diffs, range.
  replace (Z.to_nat (len l - 1)) with (length l - 1)%nat by (unfold len; lia).
  rewrite (mapM_map _
    (fun i => Z.abs (nth (Z.to_nat i) l 0 - nth (Z.to_nat (i - 1)) l 0))).
  - f_equal. rewrite map_map, <- absdiffs_by_index. apply map_ext.
    intros k. f_equal. f_equal; f_equal; lia.
  - intros i Hi.
    apply in_map_iff in Hi. destruct Hi as (k & <- & Hk).
    apply in_seq in Hk.
    rewrite (getitem_in_range l (1 + Z.of_nat k) 0) by (unfold len; lia).
    rewrite (getitem_in_range l (1 + Z.of_nat k - 1) 0) by (unfold len; lia).
    reflexivity.
Qed.

Lemma sorted_Sorted (l : list Z) : Sorted Z.le (sorted l).
Proof.
  unfold sorted. pose proof (ZSort.Sorted_sort l) as H.
  induction H as [| a s Hs IH Hhd]; constructor; [exact IH |].
  destruct Hhd as [| b s' Hab]; constructor.
  now apply Z.leb_le.
Qed.

Lemma sorted_Permutation (l : list Z) : Permutation (sorted l) l.
Proof. symmetry. apply ZSort.Permuted_sort. Qed.

Lemma sorted_length (l : list Z) : length (sorted l) = length l.
Proof. apply Permutation_length, sorted_Permutation. Qed.

(** An ascending list is determined by its elements. *)
Lemma StronglySorted_unique (s1 : list Z) :
  forall s2, StronglySorted Z.le s1 -> StronglySorted Z.le s2 ->
             Permutation s1 s2 -> s1 = s2.
Proof.
  induction s1 as [| a s1 IH]; intros s2 H1 H2 HP.
  - apply Permutation_nil in HP. now subst.
  - destruct s2 as [| b s2]; [apply Permutation_sym, Permutation_nil in HP; discriminate |].
    apply StronglySorted_inv in H1. destruct H1 as [H1 Ha].
    apply StronglySorted_inv in H2. destruct H2 as [H2 Hb].
    rewrite Forall_forall in Ha, Hb.
    assert (Hab : a = b).
    { assert (Hin1 : In a (b :: s2)) by (apply (Permutation_in _ HP); now left).
      assert (Hin2 : In b (a :: s1)) by (apply (Permutation_in _ (Permutation_sym HP)); now left).
      destruct Hin1 as [-> | Hin1]; [reflexivity |].
      destruct Hin2 as [-> | Hin2]; [reflexivity |].
      apply Hb in Hin1. apply Ha in Hin2. lia. }
    subst b. f_equal. apply IH; try assumption.
    now apply Permutation_cons_inv in HP.
Qed.

Lemma Z_le_Transitive : Relations_1.Transitive Z.le.
Proof. intros x y z. apply Z.le_trans. Qed.

Lemma sorted_unique (s l : list Z) :
  Sorted Z.le s -> Permutation s l -> s = sorted l.
Proof.
  intros Hs HP. apply StronglySorted_unique.
  - now apply Sorted_StronglySorted; [apply Z_le_Transitive |].
  - apply Sorted_StronglySorted; [apply Z_le_Transitive | apply sorted_Sorted].
  - rewrite HP. symmetry. apply sorted_Permutation.
Qed.

Lemma fold_left_add (l : list Z) :
  forall acc, fold_left Z.add l acc = acc + Spec.total l.
Proof.
  induction l as [| a l IH]; intros acc; cbn; [lia |].
  rewrite IH. unfold Spec.total. lia.
Qed.

Lemma sum_total (l : list Z) : Py.sum l = Spec.total l.
Proof. unfold Py.sum. now rewrite fold_left_add. Qed.

(** ** [compute_metrics] in closed form *)

Lemma truediv_nonzero (a b : Z) :
  b <> 0 -> truediv a b = Returns (inject_Z a / inject_Z b)%Q.
Proof.
  intros H. unfold truediv. destruct (b =? 0) eqn:E; [apply Z.eqb_eq in E; lia | reflexivity].
Qed.

Lemma rank_index_range (total p : Z) :
  0 < total -> 0 <= Spec.rank_index total p < total.
Proof. unfold Spec.rank_index. lia. Qed.

(** On a non-empty list [pct] never raises and is the nearest-rank element. *)
Lemma pct_eq (durations : list Z) (p : Z) :
  durations <> [] -> pct durations p = Returns (Spec.nearest_rank durations p).
Proof.
  intros Hne. unfold pct, Spec.nearest_rank.
  fold (Spec.rank_index (len durations) p).
  apply getitem_in_range. apply rank_index_range.
  destruct durations; [congruence | unfold len; cbn; lia].
Qed.

Lemma is_nil_false {A : Type} (l : list A) : is_nil l = false -> len l <> 0.
Proof. destruct l; [discriminate | unfold len; cbn; lia]. Qed.

(** [compute_metrics] never raises, never writes to the globals, and
    returns [{}] on an empty window and the full dict otherwise. *)
Lemma compute_metrics_eq (now : Q) (g : Globals) :
  compute_metrics now g =
  (Returns (if is_nil (items (WINDOW g)) then VDict []
            else metrics_of now (items (WINDOW g))), g).
Proof.
  unfold compute_metrics, bind at 1, read.
  destruct (is_nil (items (WINDOW g))) eqn:Enil; [reflexivity |].
  set (data := items (WINDOW g)) in *.
  set (durations := sorted (map s_duration_ms data)).
  assert (Hd : durations <> []).
  { intros E. apply (f_equal (@length Z)) in E.
    subst durations. rewrite sorted_length, length_map in E.
    destruct data; [discriminate | discriminate]. }
  unfold bind at 1, lift. rewrite (truediv_nonzero _ _ (is_nil_false _ Enil)).
  unfold bind at 1.
  assert (Hrps :
    (if is_nil (filter (fun d => Qle_bool (now - inject_Z 60) (s_t d)) data)
     then ret (VInt 0)
     else q <- (fun g0 => (truediv (len (filter (fun d => Qle_bool (now - inject_Z 60) (s_t d)) data)) 60, g0)) ;;
          ret (VFloat q)) g = (Returns (rps_of now data), g)).
  { unfold rps_of. cbv zeta.
    destruct (is_nil (filter _ data)) eqn:E60; [reflexivity |].
    unfold bind, ret. rewrite truediv_nonzero by lia. reflexivity. }
  rewrite Hrps. clear Hrps.
  unfold bind at 1. rewrite consecutive_diffs_eq.
  unfold bind at 1.
  assert (Hjit :
    (if is_nil (Spec.absdiffs durations) then ret (VInt 0)
     else q <- (fun g0 => (truediv (Py.sum (Spec.absdiffs durations))
                                   (len (Spec.absdiffs durations)), g0)) ;;
          ret (VFloat q)) g = (Returns (jitter_of durations), g)).
  { unfold jitter_of. cbv zeta.
    destruct (is_nil (Spec.absdiffs durations)) eqn:Ed; [reflexivity |].
    unfold bind, ret. rewrite (truediv_nonzero _ _ (is_nil_false _ Ed)). reflexivity. }
  rewrite Hjit. clear Hjit.
  unfold bind, ret. rewrite !(pct_eq durations _ Hd), (getitem_last durations 0 Hd).
  reflexivity.
Qed.

Lemma compute_metrics_nonempty (now : Q) (g : Globals) :
  items (WINDOW g) <> [] ->
  fst (compute_metrics now g) = Returns (metrics_of now (items (WINDOW g))).
Proof.
  intros Hne. rewrite compute_metrics_eq. cbn [fst].
  destruct (items (WINDOW g)); [congruence | reflexivity].
Qed.

(** ** Empty snapshot *)

(** C6.  On an empty window, whatever the bucket holds, and in particular
    right after [qos_reset], [compute_metrics] returns the empty dict [{}]: it
    raises nothing (no [ZeroDivisionError] from [errors / total], no
    [IndexError]) and leaves the state as it was. *)
Theorem empty_snapshot (now : Q) (n : nat) (tk : Z) (last : Q) (g : Globals) :
  let empty := {| WINDOW := mkDeque n []; tokens := tk; last_refill := last |} in
  compute_metrics now empty = (Returns (VDict []), empty) /\
  compute_metrics now (snd (qos_reset g)) = (Returns (VDict []), snd (qos_reset g)).
Proof.
  split; reflexivity.
Qed.

(** A non-empty window never yields [{}], and no window makes the call
    raise: the three outcomes "no data", "data" and "failure" are distinct. *)
Lemma snapshot_never_raises (now : Q) (g : Globals) :
  exists v, fst (compute_metrics now g) = Returns v /\
            (v = VDict [] <-> items (WINDOW g) = []).
Proof.
  rewrite compute_metrics_eq. cbn [fst]. eexists; split; [reflexivity |].
  destruct (items (WINDOW g)); cbn; split; intros H; try reflexivity; discriminate.
Qed.

(** ** Percentiles *)

(** C3.  For every non-empty window, with [s] the ascending arrangement of
    its durations, the reported [p50], [p90], [p95] and [p99] are the
    elements of [s] at index [round((p/100) * (total - 1))] clamped to
    [[0, total - 1]] (an element of the list, no interpolation), and the
    reported [max] is the last element of [s]. *)
Theorem percentile_nearest_rank (now : Q) (g : Globals) (s : list Z) :
  items (WINDOW g) <> [] ->
  Sorted Z.le s ->
  Permutation s (map s_duration_ms (items (WINDOW g))) ->
  exists v,
    fst (compute_metrics now g) = Returns v /\
    get_path ["latency_ms"; "p50"]%string v = Some (VInt (Spec.nearest_rank s 50)) /\
    get_path ["latency_ms"; "p90"]%string v = Some (VInt (Spec.nearest_rank s 90)) /\
    get_path ["latency_ms"; "p95"]%string v = Some (VInt (Spec.nearest_rank s 95)) /\
    get_path ["latency_ms"; "p99"]%string v = Some (VInt (Spec.nearest_rank s 99)) /\
    get_path ["latency_ms"; "max"]%string v = Some (VInt (last s 0)).
Proof.
  intros Hne Hs HP. rewrite (compute_metrics_nonempty now g Hne).
  rewrite (sorted_unique s _ Hs HP).
  eexists; split; [reflexivity |]. repeat split; reflexivity.
Qed.

Lemma percentile_nearest_rank_witness :
  exists v,
    fst (compute_metrics 6 five_samples) = Returns v /\
    get_path ["latency_ms"; "p50"]%string v = Some (VInt 30) /\
    get_path ["latency_ms"; "p90"]%string v = Some (VInt 50) /\
    get_path ["latency_ms"; "p95"]%string v = Some (VInt 50) /\
    get_path ["latency_ms"; "p99"]%string v = Some (VInt 50) /\
    get_path ["latency_ms"; "max"]%string v = Some (VInt 50).
Proof.
  apply (percentile_nearest_rank 6 five_samples [10; 20; 30; 40; 50]).
  - discriminate.
  - repeat constructor; lia.
  - reflexivity.
Defined.

(** For a percentage in [[0, 100]] the clamp is never active: the index is
    the rounded rank itself, an integer nearest to [(p/100) * (total - 1)]. *)
Lemma rank_index_nearest (total p : Z) :
  0 < total -> 0 <= p <= 100 ->
  Spec.rank_index total p =
    Py.round ((inject_Z p / inject_Z 100) * inject_Z (total - 1)) /\
  Spec.nearest_int ((inject_Z p / inject_Z 100) * inject_Z (total - 1))
                   (Spec.rank_index total p).
Proof.
  intros Ht Hp.
  set (x := ((inject_Z p / inject_Z 100) * inject_Z (total - 1))%Q).
  pose proof (round_nearest x) as Hn. unfold Spec.nearest_int in Hn.
  assert (Heq : Spec.rank_index total p = Py.round x).
  { unfold Spec.rank_index. fold x.
    apply Qabs_Qle_condition in Hn. destruct Hn as [Hn1 Hn2].
    assert (Hx0 : (0 <= x)%Q).
    { subst x. apply Qmult_le_0_compat.
      - apply Qle_shift_div_l; [reflexivity |].
        rewrite Qmult_0_l. change 0%Q with (inject_Z 0). rewrite <- Zle_Qle. lia.
      - change 0%Q with (inject_Z 0). rewrite <- Zle_Qle. lia. }
    assert (Hx1 : (x <= inject_Z (total - 1))%Q).
    { subst x. rewrite <- (Qmult_1_l (inject_Z (total - 1))) at 2.
      apply Qmult_le_compat_r.
      - apply Qle_shift_div_r; [reflexivity |].
        rewrite Qmult_1_l. rewrite <- Zle_Qle. lia.
      - change 0%Q with (inject_Z 0). rewrite <- Zle_Qle. lia. }
    assert (H0 : (inject_Z (-1) < inject_Z (Py.round x))%Q)
      by (change (inject_Z (-1)) with (-1 # 1)%Q; lra).
    assert (H1 : (inject_Z (Py.round x) < inject_Z (total - 1 + 1))%Q)
      by (rewrite (inject_Z_plus (total - 1) 1); change (inject_Z 1) with 1%Q; lra).
    rewrite <- Zlt_Qlt in H0, H1. lia. }
  split; [exact Heq |]. unfold Spec.nearest_int. rewrite Heq. exact Hn.
Qed.

(** ** Jitter *)

Lemma absdiffs_nil_iff (s : list Z) :
  is_nil (Spec.absdiffs s) = (length s <=? 1)%nat.
Proof. destruct s as [| a [| b s]]; reflexivity. Qed.

(** C7.  For every non-empty window, with [s] the ascending arrangement of
    its durations: when the window holds exactly one sample the reported
    jitter is [0]; otherwise it is the mean of the absolute differences
    between consecutive elements of [s], rounded to 2 decimal places. *)
Theorem jitter_sorted_absdiff (now : Q) (g : Globals) (s : list Z) :
  items (WINDOW g) <> [] ->
  Sorted Z.le s ->
  Permutation s (map s_duration_ms (items (WINDOW g))) ->
  exists v j,
    fst (compute_metrics now g) = Returns v /\
    get_path ["jitter_ms_avg_absdiff"]%string v = Some j /\
    (length (items (WINDOW g)) = 1%nat -> j = VInt 0) /\
    ((2 <= length (items (WINDOW g)))%nat ->
     exists r, j = VFloat r /\ Spec.rounded_to 2 (Spec.mean (Spec.absdiffs s)) r).
Proof.
  intros Hne Hs HP. rewrite (compute_metrics_nonempty now g Hne).
  assert (Hlen : length s = length (items (WINDOW g)))
    by (rewrite (Permutation_length HP); apply length_map).
  rewrite <- Hlen.
  exists (metrics_of now (items (WINDOW g))), (round_ndigits (jitter_of s) 2).
  split; [reflexivity |]. split.
  { unfold metrics_of. rewrite <- (sorted_unique s _ Hs HP). reflexivity. }
  unfold jitter_of. cbv zeta. rewrite absdiffs_nil_iff.
  split; intros Hn.
  - rewrite Hn. reflexivity.
  - destruct (length s <=? 1)%nat eqn:E; [apply Nat.leb_le in E; lia |].
    cbn [round_ndigits]. eexists; split; [reflexivity |].
    unfold Spec.mean. rewrite <- sum_total. apply round_float_rounded.
Qed.

Lemma jitter_sorted_absdiff_witness :
  exists v j,
    fst (compute_metrics 6 three_samples) = Returns v /\
    get_path ["jitter_ms_avg_absdiff"]%string v = Some j /\
    (length (items (WINDOW three_samples)) = 1%nat -> j = VInt 0) /\
    ((2 <= length (items (WINDOW three_samples)))%nat ->
     exists r, j = VFloat r /\
               Spec.rounded_to 2 (Spec.mean (Spec.absdiffs [10; 20; 50])) r).
Proof.
  apply (jitter_sorted_absdiff 6 three_samples [10; 20; 50]).
  - discriminate.
  - repeat constructor; lia.
  - vm_compute. apply perm_skip, perm_swap.
Defined.

Example jitter_three_samples :
  option_map Py.to_Q
    (match fst (compute_metrics 6 three_samples) with
     | Returns v => get_path ["jitter_ms_avg_absdiff"]%string v
     | Raises _ => None
     end) = Some (Some (2000 # 100)).
Proof. vm_compute. reflexivity. Qed.

Example jitter_singleton :
  match fst (compute_metrics 6 (window_of [(1, 30, 200)])) with
  | Returns v => get_path ["jitter_ms_avg_absdiff"]%string v
  | Raises _ => None
  end = Some (VInt 0).
Proof. vm_compute. reflexivity. Qed.

(** ** Throughput *)

Lemma filter_count_since (cutoff : Q) (data : list Sample) :
  length (filter (fun d => Qle_bool cutoff (s_t d)) data) =
  Spec.count_since cutoff data.
Proof.
  induction data as [| d data IH]; [reflexivity |].
  cbn [filter Spec.count_since].
  destruct (Qlt_le_dec (s_t d) cutoff) as [Hlt | Hle].
  - destruct (Qle_bool cutoff (s_t d)) eqn:E; [| exact IH].
    apply Qle_bool_iff in E. exfalso. apply (Qlt_not_le _ _ Hlt E).
  - apply Qle_bool_iff in Hle. rewrite Hle. cbn. now rewrite IH.
Qed.

(** C8.  For every non-empty window and every clock reading [now], with [n]
    the number of samples whose timestamp is at least [now - 60]: when
    [n = 0] the reported throughput is [0]; otherwise it is [n / 60] rounded
    to 3 decimal places.  The divisor is the constant 60, whatever the age
    of the oldest counted sample. *)
Theorem throughput_fixed_divisor (now : Q) (g : Globals) :
  items (WINDOW g) <> [] ->
  let n := Spec.count_since (now - 60) (items (WINDOW g)) in
  exists v r,
    fst (compute_metrics now g) = Returns v /\
    get_path ["rps_last_60s"]%string v = Some r /\
    (n = 0%nat -> r = VInt 0) /\
    ((0 < n)%nat ->
     exists q, r = VFloat q /\
               Spec.rounded_to 3 (inject_Z (Z.of_nat n) / 60) q).
Proof.
  intros Hne n. rewrite (compute_metrics_nonempty now g Hne).
  exists (metrics_of now (items (WINDOW g))),
         (round_ndigits (rps_of now (items (WINDOW g))) 3).
  split; [reflexivity |]. split; [reflexivity |].
  unfold rps_of. cbv zeta. unfold len.
  rewrite (filter_count_since (now - inject_Z 60) (items (WINDOW g))).
  change (now - inject_Z 60)%Q with (now - 60)%Q. fold n.
  pose proof (filter_count_since (now - 60) (items (WINDOW g))) as Hc. fold n in Hc.
  destruct (filter _ (items (WINDOW g))) as [| d rest] eqn:Ef; cbn [is_nil round_ndigits].
  - split; [reflexivity |]. cbn in Hc. lia.
  - split; [cbn in Hc; lia |]. intros _.
    eexists; split; [reflexivity |]. apply round_float_rounded.
Qed.

Lemma throughput_fixed_divisor_witness :
  exists v r,
    fst (compute_metrics 100 old_and_recent) = Returns v /\
    get_path ["rps_last_60s"]%string v = Some r /\
    (1%nat = 0%nat -> r = VInt 0) /\
    ((0 < 1)%nat ->
     exists q, r = VFloat q /\ Spec.rounded_to 3 (inject_Z 1 / 60) q).
Proof.
  apply (throughput_fixed_divisor 100 old_and_recent). discriminate.
Defined.

Example throughput_one_recent :
  option_map Py.to_Q
    (match fst (compute_metrics 100 old_and_recent) with
     | Returns v => get_path ["rps_last_60s"]%string v
     | Raises _ => None
     end) = Some (Some (17 # 1000)).
Proof. vm_compute. reflexivity. Qed.

Example throughput_none_recent :
  match fst (compute_metrics 1000 old_and_recent) with
  | Returns v => get_path ["rps_last_60s"]%string v
  | Raises _ => None
  end = Some (VInt 0).
Proof. vm_compute. reflexivity. Qed.

(** ** Snapshot is read-only *)

(** C10.  For every state, [compute_metrics] returns with the window, the
    token count and the last-refill time exactly as they were; and when it
    reports a [qos_policy] (the window is non-empty), the values are the
    constants [tokens_per_sec = 5] and [burst = 10], whatever the bucket
    holds at that moment. *)
Theorem snapshot_read_only (now : Q) (g : Globals) :
  snd (compute_metrics now g) = g /\
  (items (WINDOW g) <> [] ->
   exists v,
     fst (compute_metrics now g) = Returns v /\
     get_path ["qos_policy"; "token_bucket"; "tokens_per_sec"]%string v = Some (VInt 5) /\
     get_path ["qos_policy"; "token_bucket"; "burst"]%string v = Some (VInt 10)).
Proof.
  split.
  - rewrite compute_metrics_eq. reflexivity.
  - intros Hne. rewrite (compute_metrics_nonempty now g Hne).
    eexists; split; [reflexivity |]. split; reflexivity.
Qed.

Lemma snapshot_read_only_witness :
  tokens drained_with_samples = 0 /\
  snd (compute_metrics 6 drained_with_samples) = drained_with_samples /\
  exists v,
    fst (compute_metrics 6 drained_with_samples) = Returns v /\
    get_path ["qos_policy"; "token_bucket"; "tokens_per_sec"]%string v = Some (VInt 5) /\
    get_path ["qos_policy"; "token_bucket"; "burst"]%string v = Some (VInt 10).
Proof.
  split; [reflexivity |].
  destruct (snapshot_read_only 6 drained_with_samples) as [Hframe Hpolicy].
  split; [exact Hframe |]. apply Hpolicy. discriminate.
Defined.

(** ** Agreement with binary64 on the window range *)

(** For every window size up to the bound 2000 and each reported percentile,
    the index computed with binary64 operations is the index of the rational
    reading. *)
Lemma rank_index_binary64 :
  forallb (fun total =>
    forallb (fun p =>
      match Binary64.rank_index total p with
      | Some i => i =? Spec.rank_index total p
      | None => false
      end) [50; 90; 95; 99])
    (Py.range 1 2001) = true.
Proof. vm_compute. reflexivity. Qed.

(** For every count of recent samples up to the bound 2000, the throughput
    rounded from the binary64 quotient is the one rounded from the rational
    quotient. *)
Lemma rps_binary64 :
  forallb (fun n =>
    match Binary64.rps n with
    | Some q => Qeq_bool q (Py.round_float (inject_Z n / inject_Z 60) 3)
    | None => false
    end)
    (Py.range 1 2001) = true.
Proof. vm_compute. reflexivity. Qed.

(** * Further properties of the core *)

(** ** Rounding is monotone *)

Section RoundMonotone.
Local Open Scope Q_scope.

Lemma round_cases (x : Q) :
  (Py.round x = Qfloor x /\ x - inject_Z (Qfloor x) < 1 # 2) \/
  (Py.round x = (if Z.even (Qfloor x) then Qfloor x else Qfloor x + 1)%Z /\
   x - inject_Z (Qfloor x) == 1 # 2) \/
  (Py.round x = (Qfloor x + 1)%Z /\ 1 # 2 < x - inject_Z (Qfloor x)).
Proof.
  unfold Py.round.
  destruct (x - inject_Z (Qfloor x) ?= 1 # 2) eqn:E.
  - apply Qeq_alt in E. right; left. split; [reflexivity | exact E].
  - apply Qlt_alt in E. left. split; [reflexivity | exact E].
  - apply Qgt_alt in E. right; right. split; [reflexivity | exact E].
Qed.

Lemma round_mono (x y : Q) : x <= y -> (Py.round x <= Py.round y)%Z.
Proof.
  intros Hxy. pose proof (Qfloor_resp_le _ _ Hxy) as Hf.
  destruct (round_cases x) as [[Hx Hx'] | [[Hx Hx'] | [Hx Hx']]];
    destruct (round_cases y) as [[Hy Hy'] | [[Hy Hy'] | [Hy Hy']]];
    rewrite Hx, Hy;
    destruct (Z.eq_dec (Qfloor x) (Qfloor y)) as [Heq | Hne];
    try (rewrite Heq in *);
    try (destruct (Z.even (Qfloor x))); try (destruct (Z.even (Qfloor y)));
    try lia; exfalso; lra.
Qed.

Lemma round_float_mono (x y : Q) (n : nat) :
  x <= y -> Py.round_float x n <= Py.round_float y n.
Proof.
  intros Hxy. unfold Py.round_float, Py.pow10.
  pose proof (pow10_pos n) as HP. set (P := inject_Z (10 ^ Z.of_nat n)) in *.
  unfold Qdiv. apply Qmult_le_compat_r.
  - rewrite <- Zle_Qle. apply round_mono. apply Qmult_le_compat_r; lra.
  - apply Qlt_le_weak, Qinv_lt_0_compat, HP.
Qed.

Lemma round_inject_Z (z : Z) : Py.round (inject_Z z) = z.
Proof.
  unfold Py.round. rewrite Qfloor_Z.
  destruct (inject_Z z - inject_Z z ?= 1 # 2) eqn:E.
  - apply Qeq_alt in E. exfalso. lra.
  - reflexivity.
  - apply Qgt_alt in E. exfalso. lra.
Qed.

End RoundMonotone.

(** ** Token bucket: when a call is denied *)

Lemma int_pos_iff (x : Q) : 0 < Py.int x <-> (1 <= x)%Q.
Proof.
  split; intros H.
  - destruct (Z_lt_le_dec (Qnum x) 0) as [Hn | Hn].
    + pose proof (int_nonpos x). lia.
    + rewrite (int_floor_nonneg x Hn) in H.
      apply Qle_trans with (inject_Z (Qfloor x)); [| apply Qfloor_le].
      change 1%Q with (inject_Z 1). rewrite <- Zle_Qle. lia.
  - assert (H1 : 1 <= Py.int x) by (apply int_lower_bound; [lia | exact H]).
    lia.
Qed.

Lemma int_pos_le (x : Q) : 0 < Py.int x -> (inject_Z (Py.int x) <= x)%Q.
Proof.
  intros H. destruct (Z_lt_le_dec (Qnum x) 0) as [Hn | Hn].
  - pose proof (int_nonpos x). lia.
  - rewrite (int_floor_nonneg x Hn). apply Qfloor_le.
Qed.

(** X1.  In a state that satisfies the bucket bounds, [qos_admit] denies a
    call exactly when the bucket is empty and less than a fifth of a second
    has passed since [last_refill]; the denied call leaves the globals
    untouched.  With a token left, or a fifth of a second or more elapsed,
    the call is allowed. *)
Theorem qos_admit_decision (t : Q) (g : Globals) :
  0 <= tokens g <= BURST ->
  (tokens g = 0 /\ (t < last_refill g + (1 # 5))%Q ->
   qos_admit t g = (Returns (false, 1), g)) /\
  (0 < tokens g \/ (last_refill g + (1 # 5) <= t)%Q ->
   fst (qos_admit t g) = Returns (true, 0)).
Proof.
  intros Hok. rewrite qos_admit_eq, refill_tokens_eq.
  cbv beta iota zeta delta [snd].
  pose proof (int_pos_iff ((t - last_refill g) * inject_Z TOKENS_PER_SEC)) as Hint.
  unfold TOKENS_PER_SEC in Hint. change (inject_Z 5) with (5 # 1)%Q in Hint.
  revert Hint. unfold TOKENS_PER_SEC. change (inject_Z 5) with (5 # 1)%Q.
  generalize (Py.int ((t - last_refill g) * (5 # 1))); intros add Hint.
  unfold BURST in *.
  split.
  - intros [Hz Hlt].
    assert (Hadd : (0 <? add) = false).
    { apply Z.ltb_ge. destruct (Z_lt_le_dec 0 add) as [Hp | Hp]; [| exact Hp].
      apply Hint in Hp. exfalso. lra. }
    rewrite Hadd, Hz. reflexivity.
  - intros Hcase. destruct (0 <? add) eqn:Hadd.
    + apply Z.ltb_lt in Hadd. cbn [with_bucket tokens last_refill].
      assert (E : (0 <? Z.min 10 (tokens g + add)) = true) by (apply Z.ltb_lt; lia).
      rewrite E. reflexivity.
    + apply Z.ltb_ge in Hadd. destruct Hcase as [Hpos | Hlate].
      * apply Z.ltb_lt in Hpos. rewrite Hpos. reflexivity.
      * exfalso. assert (Hp : 0 < add) by (apply Hint; lra). lia.
Qed.

Lemma qos_admit_decision_witness :
  let empty_bucket := with_bucket (module_init 0) 0 0 in
  (tokens empty_bucket = 0 /\ ((1 # 10) < last_refill empty_bucket + (1 # 5))%Q ->
   qos_admit (1 # 10) empty_bucket = (Returns (false, 1), empty_bucket)) /\
  (0 < tokens empty_bucket \/ (last_refill empty_bucket + (1 # 5) <= (1 # 10))%Q ->
   fst (qos_admit (1 # 10) empty_bucket) = Returns (true, 0)).
Proof.
  apply (qos_admit_decision (1 # 10) (with_bucket (module_init 0) 0 0)).
  cbn. unfold BURST. lia.
Defined.

(** ** Token bucket: the admitted rate *)

Section RateBound.
Variables t0 T : Q.

Lemma rate_inv_step (t : Q) (c : Z) (g : Globals) :
  (t <= t0 + T)%Q -> rate_inv t0 T c g ->
  rate_inv t0 T (c + allowed_count [fst (qos_admit t g)]) (snd (qos_admit t g)).
Proof.
  intros Ht (Hnn & Hsum & Hlast). rewrite qos_admit_eq, refill_tokens_eq.
  cbv beta iota zeta delta [snd].
  pose proof (int_pos_le ((t - last_refill g) * inject_Z TOKENS_PER_SEC)) as Hint.
  unfold TOKENS_PER_SEC in Hint. change (inject_Z 5) with (5 # 1)%Q in Hint.
  revert Hint. unfold TOKENS_PER_SEC. change (inject_Z 5) with (5 # 1)%Q.
  generalize (Py.int ((t - last_refill g) * (5 # 1))); intros add Hint.
  rewrite inject_Z_plus in Hsum.
  destruct (0 <? add) eqn:Hadd.
  - apply Z.ltb_lt in Hadd. specialize (Hint Hadd).
    cbn [with_bucket tokens last_refill].
    set (m := Z.min BURST (tokens g + add)).
    assert (Hm : 0 < m <= tokens g + add) by (subst m; unfold BURST; lia).
    assert (Hmq : (inject_Z m <= inject_Z (tokens g) + inject_Z add)%Q)
      by (rewrite <- inject_Z_plus, <- Zle_Qle; lia).
    assert (E : (0 <? m) = true) by (apply Z.ltb_lt; lia).
    rewrite E. unfold rate_inv. cbn [fst snd with_bucket tokens last_refill allowed_count].
    split; [lia |]. split; [| exact Ht].
    replace (m - 1 + (c + (1 + 0))) with (m + c) by lia.
    rewrite inject_Z_plus. lra.
  - destruct (0 <? tokens g) eqn:E.
    + apply Z.ltb_lt in E. unfold rate_inv.
      cbn [fst snd with_bucket tokens last_refill allowed_count].
      split; [lia |]. split; [| exact Hlast].
      replace (tokens g - 1 + (c + (1 + 0))) with (tokens g + c) by lia.
      rewrite inject_Z_plus. exact Hsum.
    + unfold rate_inv. cbn [fst snd allowed_count].
      rewrite Z.add_0_r, inject_Z_plus. repeat split; assumption.
Qed.

Lemma allowed_count_cons (r : outcome (bool * Z)) (rs : list (outcome (bool * Z))) :
  allowed_count (r :: rs) = allowed_count [r] + allowed_count rs.
Proof. destruct r as [[[|] z] | e]; cbn; lia. Qed.

Lemma rate_inv_admit_all (ts : list Q) :
  forall c g, (forall t, In t ts -> (t <= t0 + T)%Q) -> rate_inv t0 T c g ->
  rate_inv t0 T (c + allowed_count (fst (admit_all ts g))) (snd (admit_all ts g)).
Proof.
  induction ts as [| t ts IH]; intros c g Hts Hinv.
  - cbn. now rewrite Z.add_0_r.
  - cbn [admit_all].
    pose proof (rate_inv_step t c g (Hts t (or_introl eq_refl)) Hinv) as Hstep.
    destruct (qos_admit t g) as [r g1]. cbn [fst snd] in Hstep.
    specialize (IH _ g1 (fun t' Hin => Hts t' (or_intror Hin)) Hstep).
    destruct (admit_all ts g1) as [rs g2]. cbn [fst snd] in IH |- *.
    rewrite allowed_count_cons. now rewrite Z.add_assoc.
Qed.

End RateBound.

(** X2.  The rate limit.  From the initial state at [t0], whatever the
    sequence of calls, if every call is made no later than [t0 + T] then at
    most [BURST + TOKENS_PER_SEC * T = 10 + 5 T] of them are allowed. *)
Theorem admitted_rate_bound (t0 T : Q) (ts : list Q) :
  (0 <= T)%Q ->
  (forall t, In t ts -> (t <= t0 + T)%Q) ->
  (inject_Z (allowed_count (fst (admit_all ts (module_init t0)))) <= 10 + 5 * T)%Q.
Proof.
  intros HT Hts.
  destruct (rate_inv_admit_all t0 T ts 0 (module_init t0) Hts) as (Hnn & Hsum & Hlast).
  - unfold rate_inv, module_init, BURST; cbn.
    split; [lia | split; [change (inject_Z 10) with (10 # 1)%Q; lra | lra]].
  - rewrite Z.add_0_l in Hsum. rewrite inject_Z_plus in Hsum.
    assert (Hq : (0 <= inject_Z (tokens (snd (admit_all ts (module_init t0)))))%Q)
      by (change 0%Q with (inject_Z 0); now rewrite <- Zle_Qle).
    lra.
Qed.

Lemma admitted_rate_bound_witness :
  (inject_Z (allowed_count (fst (admit_all (repeat 0%Q 20 ++ [1%Q; 1%Q])
                                           (module_init 0)))) <= 10 + 5 * 1)%Q.
Proof.
  apply (admitted_rate_bound 0 1 (repeat 0%Q 20 ++ [1%Q; 1%Q])).
  - unfold Qle; cbn; lia.
  - intros t Hin. cbn in Hin.
    repeat (destruct Hin as [<- | Hin]; [unfold Qle; cbn; lia |]).
    destruct Hin.
Defined.

(** ** Invariants of every reachable state *)

Lemma deque_append_bound {A : Type} (x : A) (d : deque A) :
  (length (items d) <= maxlen d)%nat ->
  maxlen (deque_append x d) = maxlen d /\
  (length (items (deque_append x d)) <= maxlen d)%nat.
Proof.
  intros Hd. unfold deque_append; cbn [maxlen items]. split; [reflexivity |].
  rewrite length_app; cbn [length].
  destruct (maxlen d <? length (items d) + 1)%nat eqn:E.
  - rewrite length_tl, length_app; cbn [length]. lia.
  - apply Nat.ltb_ge in E. rewrite length_app; cbn [length]. lia.
Qed.

Lemma step_state_ok (c : call) (g : Globals) : state_ok g -> state_ok (step c g).
Proof.
  intros (Htk & Hmax & Hlen). destruct c as [t | t e d s | now |]; cbn [step].
  - split; [now apply qos_admit_ok |].
    rewrite qos_admit_eq, refill_tokens_eq. cbv beta iota zeta delta [snd].
    destruct (0 <? _); cbn [with_bucket tokens last_refill];
      destruct (0 <? _); cbn; split; assumption.
  - unfold record, update_WINDOW, state_ok; cbn [snd tokens WINDOW].
    destruct (deque_append_bound (mkSample t e d s) (WINDOW g)) as [H1 H2]; [lia |].
    split; [assumption |]. split; [now rewrite H1 | lia].
  - rewrite compute_metrics_eq. cbn [snd]. exact (conj Htk (conj Hmax Hlen)).
  - unfold qos_reset, update_WINDOW, deque_clear, state_ok; cbn.
    split; [assumption |]. split; [assumption | lia].
Qed.

(** X3.  After any sequence of calls of [qos_admit], [record],
    [compute_metrics] and the reset, in any order and at any clock readings,
    the token count is within [0, BURST], the window still has bound 2000
    and holds at most 2000 samples. *)
Theorem reachable_state_ok (t0 : Q) (cs : list call) :
  state_ok (run cs (module_init t0)).
Proof.
  unfold run.
  assert (H0 : state_ok (module_init t0))
    by (unfold state_ok, module_init, BURST; cbn; lia).
  revert H0. generalize (module_init t0).
  induction cs as [| c cs IH]; intros g Hg; cbn; [exact Hg |].
  apply IH, step_state_ok, Hg.
Qed.

(** ** Bucket and window are independent *)

(** X4.  The bucket and the window do not interact: [record] and the reset
    leave [tokens] and [last_refill] as they are, [qos_admit] leaves the
    window as it is, and a [qos_admit] and a [record] give the same decision
    and the same final state in either order. *)
Theorem bucket_window_independent
    (t tr : Q) (endpoint : string) (duration_ms status : Z) (g : Globals) :
  let gr := snd (record tr endpoint duration_ms status g) in
  let ga := snd (qos_admit t g) in
  (tokens gr = tokens g /\ last_refill gr = last_refill g) /\
  (tokens (snd (qos_reset g)) = tokens g /\
   last_refill (snd (qos_reset g)) = last_refill g) /\
  WINDOW ga = WINDOW g /\
  fst (qos_admit t gr) = fst (qos_admit t g) /\
  snd (qos_admit t gr) = snd (record tr endpoint duration_ms status ga).
Proof.
  cbv zeta. split; [split; reflexivity |]. split; [split; reflexivity |].
  rewrite !qos_admit_eq, !refill_tokens_eq. cbv beta iota zeta delta [snd].
  unfold record, update_WINDOW. cbn [snd tokens last_refill WINDOW].
  destruct (0 <? Py.int _); cbn [with_bucket tokens last_refill WINDOW];
    destruct (0 <? _); cbn; repeat split; reflexivity.
Qed.

(** ** Window after a reset *)

(** X5.  After the reset, whatever the window held before, [n] calls of
    [record] leave the last [min(n, maxlen)] recorded samples in insertion
    order: nothing is evicted before the bound is reached, and afterwards
    exactly the oldest samples are. *)
Theorem window_after_reset (calls : list record_call) (g : Globals) :
  let w := WINDOW (record_all calls (snd (qos_reset g))) in
  maxlen w = maxlen (WINDOW g) /\
  items w = skipn (length calls - maxlen (WINDOW g)) (map sample_of calls) /\
  length (items w) = Nat.min (length calls) (maxlen (WINDOW g)).
Proof.
  cbv zeta. rewrite WINDOW_record_all.
  destruct (deque_extend_items (map sample_of calls) (WINDOW (snd (qos_reset g))))
    as [Hmax Hitems]; [cbn; lia |].
  cbn [qos_reset update_WINDOW snd WINDOW deque_clear items maxlen app] in *.
  rewrite length_map in Hitems.
  split; [exact Hmax |]. split; [exact Hitems |].
  rewrite Hitems, length_skipn, length_map. lia.
Qed.

(** ** Error rate *)

Lemma sum_ones {A : Type} (l : list A) :
  Py.sum (map (fun _ => 1) l) = Z.of_nat (length l).
Proof.
  rewrite sum_total. induction l as [| a l IH]; [reflexivity |].
  cbn [map length]. unfold Spec.total in *. cbn [fold_right]. rewrite IH. lia.
Qed.

Lemma round_Qeq (x y : Q) : (x == y)%Q -> Py.round x = Py.round y.
Proof.
  intros H. apply Z.le_antisymm; apply round_mono; rewrite H; apply Qle_refl.
Qed.

(** Rounding to [n] places leaves an int where it is. *)
Lemma round_float_inject_Z (z : Z) (n : nat) :
  (Py.round_float (inject_Z z) n == inject_Z z)%Q.
Proof.
  unfold Py.round_float, Py.pow10. pose proof (pow10_pos n) as HP.
  rewrite (round_Qeq _ (inject_Z (z * 10 ^ Z.of_nat n)))
    by (rewrite inject_Z_mult; reflexivity).
  rewrite round_inject_Z, inject_Z_mult.
  field. intros H0. rewrite H0 in HP. apply (Qlt_irrefl 0 HP).
Qed.

(** X6.  For every non-empty window the reported [count] is the number of
    samples, and the reported [error_rate] is the share of samples whose
    status is 400 or more, rounded to 4 decimal places; it lies in
    [[0, 1]]. *)
Theorem error_rate_share (now : Q) (g : Globals) :
  items (WINDOW g) <> [] ->
  let data := items (WINDOW g) in
  let errors := length (filter (fun d => 400 <=? s_status d) data) in
  exists v r,
    fst (compute_metrics now g) = Returns v /\
    get_path ["count"]%string v = Some (VInt (Z.of_nat (length data))) /\
    get_path ["error_rate"]%string v = Some (VFloat r) /\
    Spec.rounded_to 4
      (inject_Z (Z.of_nat errors) / inject_Z (Z.of_nat (length data))) r /\
    (0 <= r <= 1)%Q.
Proof.
  intros Hne data errors. rewrite (compute_metrics_nonempty now g Hne).
  fold data.
  set (x := (inject_Z (Z.of_nat errors) / inject_Z (Z.of_nat (length data)))%Q).
  exists (metrics_of now data), (Py.round_float x 4).
  split; [reflexivity |]. split; [reflexivity |].
  split; [unfold metrics_of, error_rate_of; cbv zeta; rewrite sum_ones; reflexivity |].
  split; [apply round_float_rounded |].
  assert (Hlen : (0 < length data)%nat)
    by (unfold data; destruct (items (WINDOW g)); [congruence | cbn; lia]).
  assert (Herr : (errors <= length data)%nat) by apply filter_length_le.
  clearbody data. clearbody errors.
  assert (Hpos : (0 < inject_Z (Z.of_nat (length data)))%Q)
    by (change 0%Q with (inject_Z 0); rewrite <- Zlt_Qlt; lia).
  assert (Hx0 : (0 <= x)%Q).
  { subst x. apply Qle_shift_div_l; [exact Hpos |].
    rewrite Qmult_0_l. change 0%Q with (inject_Z 0). rewrite <- Zle_Qle. lia. }
  assert (Hx1 : (x <= 1)%Q).
  { subst x. apply Qle_shift_div_r; [exact Hpos |].
    rewrite Qmult_1_l, <- Zle_Qle. lia. }
  split.
  - rewrite <- (round_float_inject_Z 0 4). now apply round_float_mono.
  - rewrite <- (round_float_inject_Z 1 4). now apply round_float_mono.
Qed.

Lemma error_rate_share_witness :
  exists v r,
    fst (compute_metrics 5 four_statuses) = Returns v /\
    get_path ["count"]%string v = Some (VInt 4) /\
    get_path ["error_rate"]%string v = Some (VFloat r) /\
    Spec.rounded_to 4 (inject_Z 2 / inject_Z 4) r /\
    (0 <= r <= 1)%Q.
Proof.
  apply (error_rate_share 5 four_statuses). discriminate.
Defined.

Example error_rate_four_statuses :
  option_map Py.to_Q
    (match fst (compute_metrics 5 four_statuses) with
     | Returns v => get_path ["error_rate"]%string v
     | Raises _ => None
     end) = Some (Some (5000 # 10000)).
Proof. vm_compute. reflexivity. Qed.

(** ** Percentiles are ordered and are recorded durations *)

Lemma rank_index_mono (total p q : Z) :
  0 < total -> p <= q -> Spec.rank_index total p <= Spec.rank_index total q.
Proof.
  intros Ht Hpq. unfold Spec.rank_index.
  assert (Hr : Py.round (inject_Z p / inject_Z 100 * inject_Z (total - 1)) <=
               Py.round (inject_Z q / inject_Z 100 * inject_Z (total - 1))).
  { apply round_mono. apply Qmult_le_compat_r.
    - unfold Qdiv. apply Qmult_le_compat_r; [rewrite <- Zle_Qle; exact Hpq | discriminate].
    - change 0%Q with (inject_Z 0). rewrite <- Zle_Qle. lia. }
  lia.
Qed.

Lemma StronglySorted_nth (s : list Z) :
  StronglySorted Z.le s ->
  forall i j, (i <= j < length s)%nat -> nth i s 0 <= nth j s 0.
Proof.
  induction 1 as [| a s Hs IH Ha]; intros i j Hij; [cbn in Hij; lia |].
  destruct j as [| j]; [replace i with 0%nat by lia; lia |].
  destruct i as [| i]; cbn [nth].
  - rewrite Forall_forall in Ha. apply Ha, nth_In. cbn in Hij. lia.
  - apply IH. cbn in Hij. lia.
Qed.

Lemma sorted_StronglySorted (l : list Z) : StronglySorted Z.le (sorted l).
Proof. apply Sorted_StronglySorted; [apply Z_le_Transitive | apply sorted_Sorted]. Qed.

Lemma nearest_rank_mono (l : list Z) (p q : Z) :
  l <> [] -> p <= q ->
  Spec.nearest_rank (sorted l) p <= Spec.nearest_rank (sorted l) q.
Proof.
  intros Hne Hpq. unfold Spec.nearest_rank.
  assert (Hlen : (0 < length (sorted l))%nat)
    by (rewrite sorted_length; destruct l; [congruence | cbn; lia]).
  pose proof (rank_index_range (Z.of_nat (length (sorted l))) q ltac:(lia)) as Hq.
  pose proof (rank_index_range (Z.of_nat (length (sorted l))) p ltac:(lia)) as Hp.
  pose proof (rank_index_mono (Z.of_nat (length (sorted l))) p q ltac:(lia) Hpq) as Hm.
  apply StronglySorted_nth; [apply sorted_StronglySorted | lia].
Qed.

Lemma nearest_rank_le_last (l : list Z) (p : Z) :
  l <> [] -> Spec.nearest_rank (sorted l) p <= last (sorted l) 0.
Proof.
  intros Hne. unfold Spec.nearest_rank. rewrite <- nth_length_pred.
  assert (Hlen : (0 < length (sorted l))%nat)
    by (rewrite sorted_length; destruct l; [congruence | cbn; lia]).
  pose proof (rank_index_range (Z.of_nat (length (sorted l))) p ltac:(lia)) as Hp.
  apply StronglySorted_nth; [apply sorted_StronglySorted | lia].
Qed.

Lemma nearest_rank_In (l : list Z) (p : Z) :
  l <> [] -> In (Spec.nearest_rank (sorted l) p) l.
Proof.
  intros Hne. apply (Permutation_in _ (sorted_Permutation l)).
  unfold Spec.nearest_rank. apply nth_In.
  assert (Hlen : (0 < length (sorted l))%nat)
    by (rewrite sorted_length; destruct l; [congruence | cbn; lia]).
  pose proof (rank_index_range (Z.of_nat (length (sorted l))) p ltac:(lia)). lia.
Qed.

(** X7.  For every non-empty window the reported latencies are ordered,
    [p50 <= p90 <= p95 <= p99 <= max], and each of the four percentiles is
    the duration of a sample that is in the window. *)
Theorem percentiles_ordered (now : Q) (g : Globals) :
  items (WINDOW g) <> [] ->
  exists v p50 p90 p95 p99 mx,
    fst (compute_metrics now g) = Returns v /\
    get_path ["latency_ms"; "p50"]%string v = Some (VInt p50) /\
    get_path ["latency_ms"; "p90"]%string v = Some (VInt p90) /\
    get_path ["latency_ms"; "p95"]%string v = Some (VInt p95) /\
    get_path ["latency_ms"; "p99"]%string v = Some (VInt p99) /\
    get_path ["latency_ms"; "max"]%string v = Some (VInt mx) /\
    p50 <= p90 <= p95 /\ p95 <= p99 <= mx /\
    Forall (fun p => In p (map s_duration_ms (items (WINDOW g)))) [p50; p90; p95; p99].
Proof.
  intros Hne. rewrite (compute_metrics_nonempty now g Hne).
  set (l := map s_duration_ms (items (WINDOW g))).
  assert (Hl : l <> []) by (subst l; destruct (items (WINDOW g)); [congruence | discriminate]).
  exists (metrics_of now (items (WINDOW g))),
    (Spec.nearest_rank (sorted l) 50), (Spec.nearest_rank (sorted l) 90),
    (Spec.nearest_rank (sorted l) 95), (Spec.nearest_rank (sorted l) 99),
    (last (sorted l) 0).
  do 6 (split; [reflexivity |]).
  split; [split; apply nearest_rank_mono; (assumption || lia) |].
  split; [split; [apply nearest_rank_mono; (assumption || lia)
                 | now apply nearest_rank_le_last] |].
  repeat constructor; now apply nearest_rank_In.
Qed.

Lemma percentiles_ordered_witness :
  exists v p50 p90 p95 p99 mx,
    fst (compute_metrics 6 three_samples) = Returns v /\
    get_path ["latency_ms"; "p50"]%string v = Some (VInt p50) /\
    get_path ["latency_ms"; "p90"]%string v = Some (VInt p90) /\
    get_path ["latency_ms"; "p95"]%string v = Some (VInt p95) /\
    get_path ["latency_ms"; "p99"]%string v = Some (VInt p99) /\
    get_path ["latency_ms"; "max"]%string v = Some (VInt mx) /\
    p50 <= p90 <= p95 /\ p95 <= p99 <= mx /\
    Forall (fun p => In p [10; 50; 20]) [p50; p90; p95; p99].
Proof.
  apply (percentiles_ordered 6 three_samples). discriminate.
Defined.

(** ** Extremes, and the jitter as a range *)

Lemma fold_max_spec (rest : list Z) :
  forall a, let m := fold_left Z.max rest a in
            (m = a \/ In m rest) /\ a <= m /\ Forall (fun x => x <= m) rest.
Proof.
  induction rest as [| b rest IH]; intros a; cbn.
  - split; [now left |]. split; [lia | constructor].
  - destruct (IH (Z.max a b)) as (Hin & Hle & Hall).
    split; [| split].
    + destruct Hin as [Heq | Hin]; [| now right; right].
      destruct (Z.max_spec a b) as [[_ Hm] | [_ Hm]];
        [right; left; rewrite Heq; now symmetry | left; now rewrite Heq].
    + lia.
    + constructor; [lia | exact Hall].
Qed.

Lemma fold_min_spec (rest : list Z) :
  forall a, let m := fold_left Z.min rest a in
            (m = a \/ In m rest) /\ m <= a /\ Forall (fun x => m <= x) rest.
Proof.
  induction rest as [| b rest IH]; intros a; cbn.
  - split; [now left |]. split; [lia | constructor].
  - destruct (IH (Z.min a b)) as (Hin & Hle & Hall).
    split; [| split].
    + destruct Hin as [Heq | Hin]; [| now right; right].
      destruct (Z.min_spec a b) as [[_ Hm] | [_ Hm]];
        [left; now rewrite Heq | right; left; rewrite Heq; now symmetry].
    + lia.
    + constructor; [lia | exact Hall].
Qed.

Lemma maximum_spec (l : list Z) :
  l <> [] -> In (maximum l) l /\ Forall (fun x => x <= maximum l) l.
Proof.
  destruct l as [| a rest]; [congruence |]. intros _. unfold maximum.
  destruct (fold_max_spec rest a) as (Hin & Hle & Hall).
  split; [destruct Hin as [-> | Hin]; [now left | now right] |].
  constructor; assumption.
Qed.

Lemma minimum_spec (l : list Z) :
  l <> [] -> In (minimum l) l /\ Forall (fun x => minimum l <= x) l.
Proof.
  destruct l as [| a rest]; [congruence |]. intros _. unfold minimum.
  destruct (fold_min_spec rest a) as (Hin & Hle & Hall).
  split; [destruct Hin as [-> | Hin]; [now left | now right] |].
  constructor; assumption.
Qed.

Lemma sorted_nonempty (l : list Z) : l <> [] -> (0 < length (sorted l))%nat.
Proof. intros H. rewrite sorted_length. destruct l; [congruence | cbn; lia]. Qed.

Lemma sorted_last_maximum (l : list Z) : l <> [] -> last (sorted l) 0 = maximum l.
Proof.
  intros Hne. pose proof (sorted_nonempty l Hne) as Hlen.
  destruct (maximum_spec l Hne) as [Hin Hall]. rewrite Forall_forall in Hall.
  apply Z.le_antisymm.
  - apply Hall, (Permutation_in _ (sorted_Permutation l)).
    rewrite <- nth_length_pred. apply nth_In. lia.
  - apply (Permutation_in _ (Permutation_sym (sorted_Permutation l))) in Hin.
    destruct (In_nth _ _ 0 Hin) as (i & Hi & <-).
    rewrite <- nth_length_pred.
    apply StronglySorted_nth; [apply sorted_StronglySorted | lia].
Qed.

Lemma sorted_hd_minimum (l : list Z) : l <> [] -> hd 0 (sorted l) = minimum l.
Proof.
  intros Hne. pose proof (sorted_nonempty l Hne) as Hlen.
  destruct (minimum_spec l Hne) as [Hin Hall]. rewrite Forall_forall in Hall.
  assert (Hhd : hd 0 (sorted l) = nth 0 (sorted l) 0) by (destruct (sorted l); reflexivity).
  rewrite Hhd. apply Z.le_antisymm.
  - apply (Permutation_in _ (Permutation_sym (sorted_Permutation l))) in Hin.
    destruct (In_nth _ _ 0 Hin) as (i & Hi & <-).
    apply StronglySorted_nth; [apply sorted_StronglySorted | lia].
  - apply Hall, (Permutation_in _ (sorted_Permutation l)), nth_In. lia.
Qed.

(** On an ascending list the consecutive differences telescope. *)
Lemma absdiffs_telescope (s : list Z) :
  Sorted Z.le s -> Spec.total (Spec.absdiffs s) = last s 0 - hd 0 s.
Proof.
  induction 1 as [| a s Hs IH Hhd]; [reflexivity |].
  destruct Hhd as [| b s Hab]; [cbn; lia |].
  change (Spec.absdiffs (a :: b :: s)) with (Z.abs (b - a) :: Spec.absdiffs (b :: s)).
  change (last (a :: b :: s) 0) with (last (b :: s) 0).
  unfold Spec.total in *. cbn [fold_right hd] in *. rewrite IH. lia.
Qed.

Lemma absdiffs_length (s : list Z) :
  length (Spec.absdiffs s) = (length s - 1)%nat.
Proof.
  induction s as [| a s IH]; [reflexivity |].
  destruct s as [| b s]; [reflexivity |].
  change (Spec.absdiffs (a :: b :: s)) with (Z.abs (b - a) :: Spec.absdiffs (b :: s)).
  cbn [length] in *. rewrite IH. lia.
Qed.

(** X8.  For every non-empty window the reported [max] is the largest
    duration in the window.  With two samples or more the reported jitter
    is the range of the durations divided by the number of samples less
    one, rounded to 2 decimal places: it depends on the largest duration,
    the smallest and the count only. *)
Theorem jitter_is_range (now : Q) (g : Globals) :
  items (WINDOW g) <> [] ->
  let durations := map s_duration_ms (items (WINDOW g)) in
  let n := Z.of_nat (length (items (WINDOW g))) in
  exists v,
    fst (compute_metrics now g) = Returns v /\
    get_path ["latency_ms"; "max"]%string v = Some (VInt (maximum durations)) /\
    (2 <= n ->
     exists r,
       get_path ["jitter_ms_avg_absdiff"]%string v = Some (VFloat r) /\
       Spec.rounded_to 2
         (inject_Z (maximum durations - minimum durations) / inject_Z (n - 1)) r).
Proof.
  intros Hne durations n. rewrite (compute_metrics_nonempty now g Hne).
  assert (Hl : durations <> [])
    by (subst durations; destruct (items (WINDOW g)); [congruence | discriminate]).
  exists (metrics_of now (items (WINDOW g))).
  split; [reflexivity |]. split.
  { unfold metrics_of, latency_of. cbv zeta. fold durations.
    cbn [get_path Py.get Py.assoc String.eqb Ascii.eqb Bool.eqb].
    now rewrite sorted_last_maximum. }
  intros Hn.
  unfold metrics_of, jitter_of. cbv zeta. fold durations.
  cbn [get_path Py.get Py.assoc String.eqb Ascii.eqb Bool.eqb].
  rewrite absdiffs_nil_iff, sorted_length.
  assert (Hlen : length durations = length (items (WINDOW g)))
    by (subst durations; apply length_map).
  destruct (length durations <=? 1)%nat eqn:E; [apply Nat.leb_le in E; lia |].
  cbn [round_ndigits]. eexists; split; [reflexivity |].
  rewrite sum_total, (absdiffs_telescope _ (sorted_Sorted durations)).
  rewrite sorted_last_maximum, sorted_hd_minimum by assumption.
  unfold len. rewrite absdiffs_length, sorted_length.
  replace (Z.of_nat (length durations - 1)) with (n - 1) by lia.
  apply round_float_rounded.
Qed.

Lemma jitter_is_range_witness :
  exists v,
    fst (compute_metrics 6 three_samples) = Returns v /\
    get_path ["latency_ms"; "max"]%string v = Some (VInt 50) /\
    (2 <= 3 ->
     exists r,
       get_path ["jitter_ms_avg_absdiff"]%string v = Some (VFloat r) /\
       Spec.rounded_to 2 (inject_Z (50 - 10) / inject_Z (3 - 1)) r).
Proof.
  apply (jitter_is_range 6 three_samples). discriminate.
Defined.

(** ** The reported throughput saturates *)

(** X9.  A window of at most 2000 samples, which every reachable window is,
    never reports more than 33.333 requests per second, whatever the real
    request rate: the count of recent samples is capped by the window. *)
Theorem throughput_cap (now : Q) (g : Globals) :
  (length (items (WINDOW g)) <= 2000)%nat ->
  items (WINDOW g) <> [] ->
  exists v r q,
    fst (compute_metrics now g) = Returns v /\
    get_path ["rps_last_60s"]%string v = Some r /\
    Py.to_Q r = Some q /\
    (0 <= q <= 33333 # 1000)%Q.
Proof.
  intros Hbound Hne. rewrite (compute_metrics_nonempty now g Hne).
  unfold metrics_of. cbv zeta.
  cbn [get_path Py.get Py.assoc String.eqb Ascii.eqb Bool.eqb].
  unfold rps_of. cbv zeta.
  set (last60 := filter _ (items (WINDOW g))).
  assert (Hlen : (length last60 <= 2000)%nat).
  { subst last60. etransitivity; [apply filter_length_le | exact Hbound]. }
  destruct (is_nil last60); cbn [round_ndigits Py.to_Q].
  - do 3 eexists. repeat (split; [reflexivity |]). split; [apply Qle_refl | discriminate].
  - do 3 eexists. repeat (split; [reflexivity |]).
    set (x := (inject_Z (len last60) / inject_Z 60)%Q).
    assert (Hx0 : (0 <= x)%Q).
    { subst x. apply Qle_shift_div_l; [reflexivity |].
      rewrite Qmult_0_l. change 0%Q with (inject_Z 0).
      rewrite <- Zle_Qle. unfold len. lia. }
    assert (Hx1 : (x <= inject_Z 2000 / inject_Z 60)%Q).
    { subst x. unfold Qdiv. apply Qmult_le_compat_r; [| discriminate].
      rewrite <- Zle_Qle. unfold len. lia. }
    split.
    + rewrite <- (round_float_inject_Z 0 3). now apply round_float_mono.
    + apply Qle_trans with (Py.round_float (inject_Z 2000 / inject_Z 60) 3).
      * now apply round_float_mono.
      * vm_compute. discriminate.
Qed.

Lemma throughput_cap_witness :
  exists v r q,
    fst (compute_metrics 100 old_and_recent) = Returns v /\
    get_path ["rps_last_60s"]%string v = Some r /\
    Py.to_Q r = Some q /\
    (0 <= q <= 33333 # 1000)%Q.
Proof.
  apply (throughput_cap 100 old_and_recent).
  - cbn. lia.
  - discriminate.
Defined.

(** ** Latency figures ignore the order of the samples *)

(** X10.  Two non-empty windows that hold the same durations, in whatever
    order and at whatever timestamps, report the same [latency_ms] dict and
    the same jitter. *)
Theorem latency_order_independent (now now' : Q) (g g' : Globals) :
  items (WINDOW g) <> [] ->
  Permutation (map s_duration_ms (items (WINDOW g)))
              (map s_duration_ms (items (WINDOW g'))) ->
  exists v v' lat jit,
    fst (compute_metrics now g) = Returns v /\
    fst (compute_metrics now' g') = Returns v' /\
    get_path ["latency_ms"]%string v = Some lat /\
    get_path ["latency_ms"]%string v' = Some lat /\
    get_path ["jitter_ms_avg_absdiff"]%string v = Some jit /\
    get_path ["jitter_ms_avg_absdiff"]%string v' = Some jit.
Proof.
  intros Hne HP.
  assert (Hne' : items (WINDOW g') <> []).
  { intros E. rewrite E in HP. apply Permutation_sym, Permutation_nil in HP.
    destruct (items (WINDOW g)); [congruence | discriminate]. }
  rewrite (compute_metrics_nonempty now g Hne), (compute_metrics_nonempty now' g' Hne').
  assert (Hs : sorted (map s_duration_ms (items (WINDOW g))) =
               sorted (map s_duration_ms (items (WINDOW g')))).
  { apply sorted_unique; [apply sorted_Sorted |].
    etransitivity; [apply sorted_Permutation | exact HP]. }
  unfold metrics_of. cbv zeta. rewrite Hs.
  do 4 eexists. repeat (split; [reflexivity |]). reflexivity.
Qed.

Lemma latency_order_independent_witness :
  exists v v' lat jit,
    fst (compute_metrics 6 three_samples) = Returns v /\
    fst (compute_metrics 9 (window_of [(7, 50, 500); (8, 20, 200); (8, 10, 200)])) = Returns v' /\
    get_path ["latency_ms"]%string v = Some lat /\
    get_path ["latency_ms"]%string v' = Some lat /\
    get_path ["jitter_ms_avg_absdiff"]%string v = Some jit /\
    get_path ["jitter_ms_avg_absdiff"]%string v' = Some jit.
Proof.
  apply (latency_order_independent 6 9 three_samples
           (window_of [(7, 50, 500); (8, 20, 200); (8, 10, 200)])).
  - discriminate.
  - cbn. apply Permutation_trans with [50; 10; 20].
    + apply perm_swap.
    + apply perm_skip, perm_swap.
Defined.

(** ** Request handlers *)

Lemma deque_append_newest {A : Type} (x : A) (d : deque A) :
  (1 <= maxlen d)%nat ->
  exists older, items (deque_append x d) = older ++ [x].
Proof.
  intros Hmax. unfold deque_append; cbn [items].
  destruct (maxlen d <? length (items d ++ [x]))%nat eqn:E.
  - destruct (items d) as [| a l]; cbn [app tl].
    + apply Nat.ltb_lt in E. cbn in E. lia.
    + now exists l.
  - now exists (items d).
Qed.

Lemma set_header_status (k v : string) (resp : Response) :
  status_code (set_header k v resp) = status_code resp /\
  body (set_header k v resp) = body resp.
Proof. split; reflexivity. Qed.

Lemma end_timer_eq (i : EndInputs) (req : Request) (response : Response) (g : Globals) :
  exists resp',
    end_timer i req response g =
    (Returns resp',
     snd (record (t_record i) (path req)
            (Py.int ((t_end i - match _t0 req with Some t => t | None => t_default i end)
                     * inject_Z 1000))
            (status_code response) g)) /\
    status_code resp' = status_code response /\
    body resp' = body response.
Proof.
  unfold end_timer, bind, record, update_WINDOW, ret. cbn [snd].
  eexists. split; [reflexivity |]. split; reflexivity.
Qed.

(** X11.  One request through the hooks.  Whatever the view, when it
    returns a response and the clock did not step back between
    [start_timer] and [end_timer], the request adds one sample as the newest
    of the window: its endpoint is the request path, its status the
    response's, its duration the whole milliseconds elapsed (never
    negative).  The hook leaves the response's status and body, and the
    bucket, as the view left them. *)
Theorem serve_records_request
    (t_start : Q) (url : string) (view : Py Response) (i : EndInputs)
    (g g1 : Globals) (resp : Response) :
  view g = (Returns resp, g1) ->
  (t_start <= t_end i)%Q ->
  (1 <= maxlen (WINDOW g1))%nat ->
  let duration_ms := Qfloor ((t_end i - t_start) * 1000) in
  exists resp' g2 older,
    serve t_start url view i g = (Returns resp', g2) /\
    status_code resp' = status_code resp /\
    body resp' = body resp /\
    items (WINDOW g2) =
      older ++ [mkSample (t_record i) url duration_ms (status_code resp)] /\
    0 <= duration_ms /\
    tokens g2 = tokens g1 /\ last_refill g2 = last_refill g1.
Proof.
  intros Hview Hclock Hmax duration_ms.
  unfold serve, bind. rewrite Hview.
  destruct (end_timer_eq i (start_timer t_start (mkRequest url None)) resp g1)
    as (resp' & Heq & Hst & Hbody).
  rewrite Heq. cbn [start_timer _t0 path] in *.
  assert (Hn : 0 <= Qnum ((t_end i - t_start) * inject_Z 1000)).
  { assert (H0 : (0 <= (t_end i - t_start) * inject_Z 1000)%Q).
    { apply Qmult_le_0_compat; [lra | discriminate]. }
    unfold Qle in H0. cbn in H0. cbn. lia. }
  rewrite (int_floor_nonneg _ Hn).
  change (inject_Z 1000) with 1000%Q. fold duration_ms.
  unfold record, update_WINDOW. cbn [snd].
  destruct (deque_append_newest
              (mkSample (t_record i) url duration_ms (status_code resp))
              (WINDOW g1) Hmax) as [older Hitems].
  exists resp'. eexists. exists older. split; [reflexivity |].
  split; [exact Hst |]. split; [exact Hbody |].
  split; [exact Hitems |].
  split; [| split; reflexivity].
  subst duration_ms. rewrite Qfloor_unfold.
  apply Z.div_pos; [exact Hn | reflexivity].
Qed.

Lemma serve_records_request_witness :
  exists resp' g2 older,
    serve 10 "/qos" (qos 10) end_inputs five_samples = (Returns resp', g2) /\
    status_code resp' = 200 /\
    body resp' = to_json (metrics_of 10 (items (WINDOW five_samples))) /\
    items (WINDOW g2) = older ++ [mkSample (1025 # 100) "/qos" 250 200] /\
    0 <= 250 /\
    tokens g2 = 3 /\ last_refill g2 = 0%Q.
Proof.
  apply (serve_records_request 10 "/qos" (qos 10) end_inputs five_samples five_samples
           (jsonify (to_json (metrics_of 10 (items (WINDOW five_samples)))))).
  - reflexivity.
  - unfold Qle; cbn; lia.
  - cbn. lia.
Defined.

(** X12.  A request to [/qos/reset] does not leave the window empty: the
    view clears it and the [after_request] hook then records the reset
    request itself, with status 200.  The next [compute_metrics] therefore
    reports [count = 1], not [{}]. *)
Theorem reset_request_is_recorded (t_start now : Q) (i : EndInputs) (g : Globals) :
  (1 <= maxlen (WINDOW g))%nat ->
  let g' := snd (serve t_start "/qos/reset" qos_reset_view i g) in
  items (WINDOW g') =
    [mkSample (t_record i) "/qos/reset"
       (Py.int ((t_end i - t_start) * inject_Z 1000)) 200] /\
  exists v,
    fst (compute_metrics now g') = Returns v /\
    get_path ["count"]%string v = Some (VInt 1).
Proof.
  intros Hmax g'.
  assert (Hitems : items (WINDOW g') =
    [mkSample (t_record i) "/qos/reset"
       (Py.int ((t_end i - t_start) * inject_Z 1000)) 200]).
  { subst g'.
    assert (Hview : qos_reset_view g =
      (Returns (jsonify (JDict [("ok", JBool true);
                                ("message", JStr "metrics window cleared")]%string)),
       snd (qos_reset g))) by reflexivity.
    unfold serve. unfold bind at 1. rewrite Hview.
    destruct (end_timer_eq i (start_timer t_start (mkRequest "/qos/reset" None))
                (jsonify (JDict [("ok", JBool true);
                                 ("message", JStr "metrics window cleared")]%string))
                (snd (qos_reset g))) as (resp' & Heq & _).
    rewrite Heq.
    unfold record, qos_reset, update_WINDOW, deque_clear, deque_append.
    cbn [snd fst WINDOW items maxlen app length start_timer _t0 path jsonify status_code].
    destruct (maxlen (WINDOW g) <? 1)%nat eqn:E; [apply Nat.ltb_lt in E; lia |].
    reflexivity. }
  split; [exact Hitems |].
  rewrite compute_metrics_nonempty by (rewrite Hitems; discriminate).
  rewrite Hitems. eexists. split; reflexivity.
Qed.

Lemma reset_request_is_recorded_witness :
  let g' := snd (serve 10 "/qos/reset" qos_reset_view end_inputs five_samples) in
  items (WINDOW g') = [mkSample (1025 # 100) "/qos/reset" 250 200] /\
  exists v,
    fst (compute_metrics 11 g') = Returns v /\
    get_path ["count"]%string v = Some (VInt 1).
Proof.
  apply (reset_request_is_recorded 10 11 end_inputs five_samples).
  cbn. lia.
Defined.

(** ** Rate-limited requests *)

Lemma qos_admit_denied (t : Q) (g : Globals) :
  tokens g = 0 -> (t < last_refill g + (1 # 5))%Q ->
  qos_admit t g = (Returns (false, 1), g).
Proof.
  intros Hz Hlt. rewrite qos_admit_eq, refill_tokens_eq.
  cbv beta iota zeta delta [snd].
  assert (Hadd : (0 <? Py.int ((t - last_refill g) * inject_Z TOKENS_PER_SEC)) = false).
  { apply Z.ltb_ge.
    destruct (Z_lt_le_dec 0 (Py.int ((t - last_refill g) * inject_Z TOKENS_PER_SEC)))
      as [Hp | Hp]; [| exact Hp].
    apply int_pos_iff in Hp. unfold TOKENS_PER_SEC in Hp.
    change (inject_Z 5) with (5 # 1)%Q in Hp. exfalso. lra. }
  rewrite Hadd, Hz. reflexivity.
Qed.

(** X13.  With an empty bucket and less than a fifth of a second since the
    last refill, [/slow] and [/loss] answer 429 with the header
    [Retry-After: 1] and [retry_after_s = 1] in the body, whatever their
    query arguments, and the views leave the globals untouched.  The denied
    request is still recorded by the [after_request] hook, as the newest
    sample of the window with status 429, which [compute_metrics] counts as
    an error. *)
Theorem rate_limited_request
    (t t_start : Q) (ms : Z) (p u : Q) (i : EndInputs) (g : Globals) :
  tokens g = 0 ->
  (t < last_refill g + (1 # 5))%Q ->
  (1 <= maxlen (WINDOW g))%nat ->
  slow t ms g = (Returns (Some (rate_limited 1)), g) /\
  loss t p u g = (Returns (rate_limited 1), g) /\
  status_code (rate_limited 1) = 429 /\
  headers (rate_limited 1) = [("Retry-After", "1")]%string /\
  body (rate_limited 1) =
    JDict [("error", JStr "rate_limited"); ("retry_after_s", JInt 1)]%string /\
  exists resp' g2 older newest,
    serve t_start "/loss" (loss t p u) i g = (Returns resp', g2) /\
    status_code resp' = 429 /\
    items (WINDOW g2) = older ++ [newest] /\
    s_endpoint newest = "/loss"%string /\
    s_status newest = 429 /\
    (400 <=? s_status newest) = true /\
    tokens g2 = 0.
Proof.
  intros Hz Hlt Hmax.
  pose proof (qos_admit_denied t g Hz Hlt) as Hden.
  assert (Hslow : slow t ms g = (Returns (Some (rate_limited 1)), g))
    by (unfold slow, bind; rewrite Hden; reflexivity).
  assert (Hloss : loss t p u g = (Returns (rate_limited 1), g))
    by (unfold loss, bind; rewrite Hden; reflexivity).
  split; [exact Hslow |]. split; [exact Hloss |].
  split; [reflexivity |]. split; [reflexivity |]. split; [reflexivity |].
  unfold serve, bind. rewrite Hloss.
  destruct (end_timer_eq i (start_timer t_start (mkRequest "/loss" None))
              (rate_limited 1) g) as (resp' & Heq & Hst & _).
  rewrite Heq. unfold record, update_WINDOW. cbn [snd start_timer path _t0].
  destruct (deque_append_newest
              (mkSample (t_record i) "/loss"
                 (Py.int ((t_end i - t_start) * inject_Z 1000))
                 (status_code (rate_limited 1)))
              (WINDOW g) Hmax) as [older Hitems].
  exists resp'. eexists. exists older. eexists.
  split; [reflexivity |]. split; [exact Hst |].
  split; [exact Hitems |]. repeat (split; [reflexivity |]). exact Hz.
Qed.

Lemma rate_limited_request_witness :
  let g := drained_with_samples in
  slow (1 # 10) 300 g = (Returns (Some (rate_limited 1)), g) /\
  loss (1 # 10) (1 # 2) (1 # 4) g = (Returns (rate_limited 1), g) /\
  status_code (rate_limited 1) = 429 /\
  headers (rate_limited 1) = [("Retry-After", "1")]%string /\
  body (rate_limited 1) =
    JDict [("error", JStr "rate_limited"); ("retry_after_s", JInt 1)]%string /\
  exists resp' g2 older newest,
    serve 0 "/loss" (loss (1 # 10) (1 # 2) (1 # 4)) end_inputs g = (Returns resp', g2) /\
    status_code resp' = 429 /\
    items (WINDOW g2) = older ++ [newest] /\
    s_endpoint newest = "/loss"%string /\
    s_status newest = 429 /\
    (400 <=? s_status newest) = true /\
    tokens g2 = 0.
Proof.
  apply (rate_limited_request (1 # 10) 0 300 (1 # 2) (1 # 4) end_inputs
           drained_with_samples).
  - reflexivity.
  - vm_compute. reflexivity.
  - cbn. lia.
Defined.

(** ** Simulated loss *)

(** X14.  [/loss] with a draw [u] in [[0, 1)]: with [p >= 1] the answer is
    never 200 and with [p <= 0] it is never 503; the answer is 429 exactly
    when [qos_admit] denies, and then no draw matters. *)
Theorem loss_thresholds (t p u : Q) (g : Globals) :
  (0 <= u < 1)%Q ->
  exists resp,
    fst (loss t p u g) = Returns resp /\
    snd (loss t p u g) = snd (qos_admit t g) /\
    (status_code resp = 429 <-> fst (qos_admit t g) = Returns (false, 1)) /\
    ((1 <= p)%Q -> status_code resp <> 200) /\
    ((p <= 0)%Q -> status_code resp <> 503).
Proof.
  intros [Hu0 Hu1]. unfold loss, bind.
  rewrite qos_admit_eq. cbv zeta.
  destruct (0 <? tokens (snd (refill_tokens t g))); cbn [negb fst snd].
  - destruct (Qle_bool p u) eqn:E; cbn [negb]; unfold ret; cbn [fst snd];
      eexists; (split; [reflexivity |]); (split; [reflexivity |]); cbn.
    + apply Qle_bool_iff in E.
      split; [split; intros H; discriminate |].
      split; [intros Hp; exfalso; lra | discriminate].
    + split; [split; intros H; discriminate |].
      split; [discriminate |].
      intros Hp. exfalso.
      assert (Hle : (p <= u)%Q) by lra.
      apply Qle_bool_iff in Hle. congruence.
  - unfold ret; cbn [fst snd]. eexists.
    split; [reflexivity |]. split; [reflexivity |]. cbn.
    split; [split; reflexivity |]. split; discriminate.
Qed.

Lemma loss_thresholds_witness :
  exists resp,
    fst (loss 0 1 (999 # 1000) (module_init 0)) = Returns resp /\
    snd (loss 0 1 (999 # 1000) (module_init 0)) = snd (qos_admit 0 (module_init 0)) /\
    (status_code resp = 429 <-> fst (qos_admit 0 (module_init 0)) = Returns (false, 1)) /\
    ((1 <= 1)%Q -> status_code resp <> 200) /\
    ((1 <= 0)%Q -> status_code resp <> 503).
Proof.
  apply (loss_thresholds 0 1 (999 # 1000) (module_init 0)).
  split; unfold Qle, Qlt; cbn; lia.
Defined.

(** ** The metrics call never fails *)

(** X15.  In every state [compute_metrics] returns without raising: [{}] if
    and only if the window is empty, and otherwise a dict that has all six
    keys [count], [error_rate], [rps_last_60s], [latency_ms],
    [jitter_ms_avg_absdiff] and [qos_policy].  The [/qos] view therefore
    always answers 200 with that dict as its body. *)
Theorem compute_metrics_total (now : Q) (g : Globals) :
  exists v,
    compute_metrics now g = (Returns v, g) /\
    qos now g = (Returns (jsonify (to_json v)), g) /\
    (v = VDict [] <-> items (WINDOW g) = []) /\
    (items (WINDOW g) <> [] ->
     Forall (fun k => Py.get k v <> None)
       ["count"; "error_rate"; "rps_last_60s"; "latency_ms";
        "jitter_ms_avg_absdiff"; "qos_policy"]%string).
Proof.
  exists (if is_nil (items (WINDOW g)) then VDict []
          else metrics_of now (items (WINDOW g))).
  split; [apply compute_metrics_eq |].
  split; [unfold qos, bind; rewrite compute_metrics_eq; reflexivity |].
  destruct (items (WINDOW g)) as [| d rest]; cbn [is_nil].
  - split; [split; reflexivity |]. intros H. congruence.
  - split; [split; intros H; discriminate |]. intros _.
    repeat constructor; discriminate.
Qed.

Lemma compute_metrics_total_witness :
  exists v,
    compute_metrics 6 five_samples = (Returns v, five_samples) /\
    qos 6 five_samples = (Returns (jsonify (to_json v)), five_samples) /\
    (v = VDict [] <-> items (WINDOW five_samples) = []) /\
    (items (WINDOW five_samples) <> [] ->
     Forall (fun k => Py.get k v <> None)
       ["count"; "error_rate"; "rps_last_60s"; "latency_ms";
        "jitter_ms_avg_absdiff"; "qos_policy"]%string).
Proof.
  apply (compute_metrics_total 6 five_samples).
Defined.

(** ** The timer hook without a start time *)

Lemma int_small (x : Q) : (- (1) < x < 1)%Q -> Py.int x = 0.
Proof.
  intros [Hlo Hhi]. unfold Py.int. destruct x as [n d]. cbn [Qnum Qden].
  unfold Qlt in Hlo, Hhi. cbn in Hlo, Hhi.
  destruct (Z_lt_le_dec n 0) as [Hn | Hn].
  - replace n with (- (- n)) by lia. rewrite Z.quot_opp_l by lia.
    rewrite Z.quot_small by lia. reflexivity.
  - apply Z.quot_small. lia.
Qed.

Lemma Qnum_nonpos (x : Q) : (x <= 0)%Q -> Qnum x <= 0.
Proof. destruct x as [n d]. unfold Qle. cbn. lia. Qed.

(** X16.  When the request carries no [_t0] (the [before_request] hook did
    not run), [end_timer] measures from a clock reading it takes after the
    end reading, so with a clock that does not step back the recorded
    duration is never positive, and it is 0 when the two readings are less
    than a millisecond apart. *)
Theorem end_timer_without_start
    (i : EndInputs) (req : Request) (response : Response) (g : Globals) :
  _t0 req = None ->
  (t_end i <= t_default i)%Q ->
  (1 <= maxlen (WINDOW g))%nat ->
  exists resp' g' older newest,
    end_timer i req response g = (Returns resp', g') /\
    items (WINDOW g') = older ++ [newest] /\
    s_status newest = status_code response /\
    s_duration_ms newest <= 0 /\
    ((t_default i < t_end i + (1 # 1000))%Q -> s_duration_ms newest = 0).
Proof.
  intros Hnone Hclock Hmax.
  destruct (end_timer_eq i req response g) as (resp' & Heq & _).
  rewrite Hnone in Heq. rewrite Heq.
  unfold record, update_WINDOW. cbn [snd].
  set (x := ((t_end i - t_default i) * inject_Z 1000)%Q).
  destruct (deque_append_newest
              (mkSample (t_record i) (path req) (Py.int x) (status_code response))
              (WINDOW g) Hmax) as [older Hitems].
  exists resp'. eexists. exists older. eexists.
  split; [reflexivity |]. split; [exact Hitems |]. split; [reflexivity |].
  cbn [s_duration_ms].
  assert (Hx : (x <= 0)%Q).
  { subst x. change (inject_Z 1000) with 1000%Q. lra. }
  split.
  - apply int_nonpos, Qnum_nonpos, Hx.
  - intros Hclose. apply int_small. subst x.
    change (inject_Z 1000) with 1000%Q. split; lra.
Qed.

Lemma end_timer_without_start_witness :
  exists resp' g' older newest,
    end_timer end_inputs (mkRequest "/osi" None) (jsonify (JDict [])) five_samples =
      (Returns resp', g') /\
    items (WINDOW g') = older ++ [newest] /\
    s_status newest = 200 /\
    s_duration_ms newest <= 0 /\
    ((t_default end_inputs < t_end end_inputs + (1 # 1000))%Q ->
     s_duration_ms newest = 0).
Proof.
  apply (end_timer_without_start end_inputs (mkRequest "/osi" None)
           (jsonify (JDict [])) five_samples).
  - reflexivity.
  - unfold Qle; cbn; lia.
  - cbn. lia.
Defined.

(** ** Full recovery of the bucket *)

(** X17.  Two seconds or more after [last_refill] (the burst divided by the
    rate) a refill fills the bucket to [BURST] whatever it held, down to
    empty; a [qos_admit] at that time is allowed and leaves [BURST - 1]
    tokens. *)
Theorem bucket_full_after_two_seconds (t : Q) (g : Globals) :
  0 <= tokens g ->
  (last_refill g + 2 <= t)%Q ->
  tokens (snd (refill_tokens t g)) = BURST /\
  last_refill (snd (refill_tokens t g)) = t /\
  fst (qos_admit t g) = Returns (true, 0) /\
  tokens (snd (qos_admit t g)) = BURST - 1.
Proof.
  intros Hnn Hlate.
  assert (Hadd : 10 <= Py.int ((t - last_refill g) * inject_Z TOKENS_PER_SEC)).
  { apply int_lower_bound; [lia |]. unfold TOKENS_PER_SEC.
    change (inject_Z 5) with (5 # 1)%Q. change (inject_Z 10) with (10 # 1)%Q. lra. }
  rewrite qos_admit_eq, refill_tokens_eq. cbv beta iota zeta delta [snd].
  revert Hadd.
  generalize (Py.int ((t - last_refill g) * inject_Z TOKENS_PER_SEC)); intros add Hadd.
  assert (E : (0 <? add) = true) by (apply Z.ltb_lt; lia).
  rewrite E. cbn [with_bucket tokens last_refill].
  assert (Hmin : Z.min BURST (tokens g + add) = BURST) by (unfold BURST; lia).
  rewrite Hmin. unfold BURST. cbn. repeat split; reflexivity.
Qed.

Lemma bucket_full_after_two_seconds_witness :
  tokens (snd (refill_tokens 2 drained_with_samples)) = BURST /\
  last_refill (snd (refill_tokens 2 drained_with_samples)) = 2%Q /\
  fst (qos_admit 2 drained_with_samples) = Returns (true, 0) /\
  tokens (snd (qos_admit 2 drained_with_samples)) = BURST - 1.
Proof.
  apply (bucket_full_after_two_seconds 2 drained_with_samples).
  - cbn. lia.
  - vm_compute. discriminate.
Defined.

(** ** The reported throughput decays *)

Lemma filter_length_mono {A : Type} (f h : A -> bool) (l : list A) :
  (forall a, f a = true -> h a = true) ->
  (length (filter f l) <= length (filter h l))%nat.
Proof.
  intros Hfh. induction l as [| a l IH]; [reflexivity |]. cbn [filter].
  destruct (f a) eqn:Ef.
  - rewrite (Hfh a Ef). cbn. lia.
  - destruct (h a); cbn; lia.
Qed.

Lemma rps_of_value (now : Q) (data : list Sample) :
  exists q,
    Py.to_Q (round_ndigits (rps_of now data) 3) = Some q /\
    (q == Py.round_float
            (inject_Z (len (filter (fun d => Qle_bool (now - inject_Z 60) (s_t d)) data))
             / inject_Z 60) 3)%Q.
Proof.
  unfold rps_of. cbv zeta.
  destruct (filter _ data) as [| d rest]; cbn [is_nil round_ndigits Py.to_Q].
  - exists (inject_Z 0). split; [reflexivity |].
    change (inject_Z (len []) / inject_Z 60)%Q with (inject_Z 0 / inject_Z 60)%Q.
    rewrite (round_float_inject_Z 0 3) at 1.
    symmetry. vm_compute. reflexivity.
  - eexists. split; [reflexivity | apply Qeq_refl].
Qed.

(** X18.  On a given window the reported throughput never grows as the
    clock advances: a later [now] moves the 60-second cutoff forward, so it
    counts the same samples or fewer. *)
Theorem throughput_decays (now now' : Q) (g : Globals) :
  items (WINDOW g) <> [] ->
  (now <= now')%Q ->
  exists v v' r r' q q',
    fst (compute_metrics now g) = Returns v /\
    fst (compute_metrics now' g) = Returns v' /\
    get_path ["rps_last_60s"]%string v = Some r /\
    get_path ["rps_last_60s"]%string v' = Some r' /\
    Py.to_Q r = Some q /\ Py.to_Q r' = Some q' /\
    (q' <= q)%Q.
Proof.
  intros Hne Hclock.
  rewrite !(compute_metrics_nonempty _ g Hne).
  destruct (rps_of_value now (items (WINDOW g))) as (q & Hq & Hqv).
  destruct (rps_of_value now' (items (WINDOW g))) as (q' & Hq' & Hqv').
  exists (metrics_of now (items (WINDOW g))), (metrics_of now' (items (WINDOW g))).
  exists (round_ndigits (rps_of now (items (WINDOW g))) 3),
         (round_ndigits (rps_of now' (items (WINDOW g))) 3), q, q'.
  do 4 (split; [reflexivity |]). split; [exact Hq |]. split; [exact Hq' |].
  rewrite Hqv, Hqv'. apply round_float_mono.
  unfold Qdiv. apply Qmult_le_compat_r; [| discriminate].
  rewrite <- Zle_Qle. unfold len. apply Nat2Z.inj_le.
  apply filter_length_mono. intros d Hd.
  apply Qle_bool_iff in Hd. apply Qle_bool_iff.
  change (inject_Z 60) with 60%Q in *. lra.
Qed.

Lemma throughput_decays_witness :
  exists v v' r r' q q',
    fst (compute_metrics 100 old_and_recent) = Returns v /\
    fst (compute_metrics 1000 old_and_recent) = Returns v' /\
    get_path ["rps_last_60s"]%string v = Some r /\
    get_path ["rps_last_60s"]%string v' = Some r' /\
    Py.to_Q r = Some q /\ Py.to_Q r' = Some q' /\
    (q' <= q)%Q.
Proof.
  apply (throughput_decays 100 1000 old_and_recent).
  - discriminate.
  - unfold Qle; cbn; lia.
Defined.
